(** * PAS: Promise, Async, Sync

    A shallow embedding of the Go package [pas] (the generation of the source
    that carries the optional trailing [recursive] flag) and the properties
    of its promise state machine and of its argument resolver.

    Layout:
    - the universe of Go types and of values boxed in [interface{}];
    - the fragment of package [reflect] the resolver relies on;
    - [Promise], [New], [newPending], [resolve], [Get];
    - [shallowResolve], [resolveValue], [executeFunction], [Sync], [Async];
    - the theorems. *)

From Stdlib Require Import List ZArith Bool String Lia PeanoNat.
Import ListNotations.
Local Open Scope string_scope.
Local Open Scope list_scope.

Set Implicit Arguments.

(** ** Go types and values *)

(** [reflect.Type], restricted to the types the resolver distinguishes.
    [TInterface] is the empty interface [interface{}]; [TPromise T] is the
    struct type [Promise[T]], so that [*Promise[T]] is [TPtr (TPromise T)]. *)
Inductive gotype : Type :=
| TBool
| TInt
| TInt64
| TString
| TInterface
| TPtr (elem : gotype)
| TSlice (elem : gotype)
| TArray (len : nat) (elem : gotype)
| TMap (key elem : gotype)
| TPromise (T : gotype).

(** [reflect.Kind] *)
Inductive Kind : Type :=
| KInvalid | KBool | KInt | KInt64 | KString | KInterface
| KPtr | KSlice | KArray | KMap | KStruct.

(** Addresses give pointers their identity. *)
Definition addr := nat.

(** The promise object of the source:
    [type Promise[T any] struct { value T; ready chan struct{}; once sync.Once }].
    [ready] records whether the channel has been closed, [once] whether the
    [sync.Once] has already run its function. *)
Record Promise (T : Type) : Type := mkPromise {
  value : T;
  ready : bool;
  once : bool
}.

Arguments mkPromise {T} _ _ _.
Arguments value {T} _.
Arguments ready {T} _.
Arguments once {T} _.

(** A value as it travels in an [interface{}].  [VNil] is the nil interface;
    every other constructor carries what fixes its dynamic type.  A pointer
    is nil or an address together with the value stored there.  [VPromise T p]
    is a [Promise[T]] struct in the state [p] a reader observes, so that a
    [*Promise[T]] is a [VPtr (TPromise T)].  Slices and maps remember whether
    they are the nil slice or map; a map lists its entries in the order
    [MapKeys] yields them. *)
#[local] Unset Elimination Schemes.
Inductive govalue : Type :=
| VNil
| VBool (b : bool)
| VInt (n : Z)
| VInt64 (n : Z)
| VString (s : string)
| VPtr (elem : gotype) (target : option (addr * govalue))
| VSlice (elem : gotype) (isnil : bool) (items : list govalue)
| VArray (elem : gotype) (items : list govalue)
| VMap (key elem : gotype) (isnil : bool) (entries : list (govalue * govalue))
| VPromise (T : gotype) (p : Promise govalue).
#[local] Set Elimination Schemes.

(** ** Outcomes *)

(** The [error] values [resolveValue] builds with [fmt.Errorf]; the format
    arguments are kept as fields. *)
Inductive error : Type :=
| ErrExpectedPointer (expected : gotype) (current : option gotype)
| ErrExpectedSlice (got : Kind)
| ErrSliceElem (i : nat) (err : error)
| ErrExpectedArray (got : Kind)
| ErrArrayLength (expected got : nat)
| ErrArrayElem (i : nat) (err : error)
| ErrExpectedMap (got : Kind)
| ErrMapKey (key : govalue) (err : error)
| ErrMapValue (resolvedKey : govalue) (err : error)
| ErrCannotConvert (from to : gotype).

(** The values the package panics with, and the panics raised below it. *)
Inductive panic : Type :=
| PanicNewArity (got : nat)
| PanicNotFunc (who : string)
| PanicArgCount (who : string) (expected got : nat)
| PanicNumOut (got : nat)
| PanicResolveArg (i : nat) (err : error)
| PanicArgType (i : nat) (got expected : gotype)
| PanicNumResults (got : nat)
| PanicReturnType (expected : gotype) (got : option gotype)
| PanicRuntime (msg : string)
| PanicWorker (msg : string).

(** What running a piece of the package amounts to: it returns a value,
    returns an error, panics, or blocks on a promise that is not ready. *)
Inductive exec (A : Type) : Type :=
| Ok (a : A)
| Err (e : error)
| Panic (p : panic)
| Blocked.

Arguments Ok {A} _.
Arguments Err {A} _.
Arguments Panic {A} _.
Arguments Blocked {A}.

Definition bind {A B : Type} (m : exec A) (k : A -> exec B) : exec B :=
  match m with
  | Ok a => k a
  | Err e => Err e
  | Panic p => Panic p
  | Blocked => Blocked
  end.

(** ** Promise *)

Section PromiseOps.

Variable T : Type.
(** The zero value of [T]. *)
Variable zeroT : T.

(** [&Promise[T]{ready: make(chan struct{})}] *)
Definition alloc : Promise T := mkPromise zeroT false false.

(** [p.once.Do(fn)]: runs [fn] unless the once has run already. *)
Definition onceDo (fn : Promise T -> Promise T) (p : Promise T) : Promise T :=
  if once p then p
  else let p' := fn p in mkPromise (value p') (ready p') true.

Definition setValue (v : T) (p : Promise T) : Promise T :=
  mkPromise v (ready p) (once p).

(** [close(p.ready)] *)
Definition closeReady (p : Promise T) : Promise T :=
  mkPromise (value p) true (once p).

(** [func (p *Promise[T]) Get() T]: [<-p.ready] blocks until the channel is
    closed. *)
Definition Get (p : Promise T) : exec T :=
  if ready p then Ok (value p) else Blocked.

(** [func (p *Promise[T]) resolve(value T)] (exported as [Resolve] in the
    generation before). *)
Definition resolve (v : T) (p : Promise T) : Promise T :=
  onceDo (fun q => closeReady (setValue v q)) p.

(** [func New[T any](values ...T) *Promise[T]] *)
Definition New (values : list T) : exec (Promise T) :=
  let p := alloc in
  match values with
  | [] => Ok (onceDo closeReady p)
  | [v] => Ok (onceDo closeReady (setValue v p))
  | _ => Panic (PanicNewArity (List.length values))
  end.

(** [func newPending[T any]() *Promise[T]] *)
Definition newPending : Promise T := alloc.

(** The operations a holder of a promise can apply to it. *)
Inductive op : Type :=
| OpResolve (v : T)
| OpGet.

Definition step (p : Promise T) (o : op) : Promise T :=
  match o with
  | OpResolve v => resolve v p
  | OpGet => p
  end.

Definition run (ops : list op) (p : Promise T) : Promise T :=
  fold_left step ops p.

(** The states [New] and [newPending] create and [resolve] maintains:
    the channel is closed exactly when the once has run. *)
Definition wf (p : Promise T) : Prop := ready p = once p.

End PromiseOps.

(** ** Package reflect *)

(** The operations of Go's [reflect] package that the resolver calls, on
    the universe above.  Where [reflect] panics the model panics. *)
Module reflect.

Definition kindOfType (t : gotype) : Kind :=
  match t with
  | TBool => KBool
  | TInt => KInt
  | TInt64 => KInt64
  | TString => KString
  | TInterface => KInterface
  | TPtr _ => KPtr
  | TSlice _ => KSlice
  | TArray _ _ => KArray
  | TMap _ _ => KMap
  | TPromise _ => KStruct
  end.

(** Identity of types. *)
Fixpoint type_eqb (a b : gotype) : bool :=
  match a, b with
  | TBool, TBool | TInt, TInt | TInt64, TInt64
  | TString, TString | TInterface, TInterface => true
  | TPtr x, TPtr y | TSlice x, TSlice y | TPromise x, TPromise y =>
      type_eqb x y
  | TArray n x, TArray m y => Nat.eqb n m && type_eqb x y
  | TMap k x, TMap l y => type_eqb k l && type_eqb x y
  | _, _ => false
  end.

(** [reflect.TypeOf(i)]: the dynamic type, none for the nil interface. *)
Definition TypeOf (i : govalue) : option gotype :=
  match i with
  | VNil => None
  | VBool _ => Some TBool
  | VInt _ => Some TInt
  | VInt64 _ => Some TInt64
  | VString _ => Some TString
  | VPtr elem _ => Some (TPtr elem)
  | VSlice elem _ _ => Some (TSlice elem)
  | VArray elem items => Some (TArray (List.length items) elem)
  | VMap key elem _ _ => Some (TMap key elem)
  | VPromise T _ => Some (TPromise T)
  end.

(** [reflect.ValueOf(i).Kind()] *)
Definition kindOf (i : govalue) : Kind :=
  match TypeOf i with
  | None => KInvalid
  | Some t => kindOfType t
  end.

(** [reflect.Zero(t).Interface()]: for an interface type this is the nil
    interface. *)
Fixpoint Zero (t : gotype) : govalue :=
  match t with
  | TBool => VBool false
  | TInt => VInt 0
  | TInt64 => VInt64 0
  | TString => VString ""
  | TInterface => VNil
  | TPtr elem => VPtr elem None
  | TSlice elem => VSlice elem true []
  | TArray n elem => VArray elem (repeat (Zero elem) n)
  | TMap key elem => VMap key elem true []
  | TPromise T => VPromise T (mkPromise (Zero T) false false)
  end.

(** [V.AssignableTo(T)]: the types are identical, or [T] is the empty
    interface, which every type implements. *)
Definition AssignableTo (V T : gotype) : bool :=
  type_eqb V T || type_eqb T TInterface.

(** What [Value.Set], [SetMapIndex] and [Call] do with a value bound for a
    slot of type [t]: [reflect.ValueOf(nil)] is the zero [Value], which
    they refuse, and so they do a value whose type is not assignable. *)
Definition assign (t : gotype) (x : govalue) : exec govalue :=
  match TypeOf x with
  | None => Panic (PanicRuntime "reflect: call of reflect.Value.Set on zero Value")
  | Some tx =>
      if AssignableTo tx t then Ok x
      else Panic (PanicRuntime "reflect.Set: value is not assignable to type")
  end.

(** [reflect.New(t)]: a pointer to a fresh zero value; the heap is the
    next free address. *)
Definition New (t : gotype) (h : addr) : govalue * addr :=
  (VPtr t (Some (h, Zero t)), S h).

(** [ptr.Elem().Set(reflect.ValueOf(x))] *)
Definition SetElem (ptr x : govalue) : exec govalue :=
  match ptr with
  | VPtr t (Some (a, _)) =>
      bind (assign t x) (fun x' => Ok (VPtr t (Some (a, x'))))
  | _ => Panic (PanicRuntime "reflect: call of reflect.Value.Elem on nil pointer")
  end.

(** Whether the runtime can hash a map key: slices and maps cannot be. *)
Fixpoint hashable (k : govalue) : bool :=
  match k with
  | VSlice _ _ _ | VMap _ _ _ _ => false
  | VArray _ items =>
      (fix all (l : list govalue) : bool :=
         match l with
         | [] => true
         | x :: l' => hashable x && all l'
         end) items
  | _ => true
  end.

Definition same_target {A : Type} (x y : option (addr * A)) : bool :=
  match x, y with
  | None, None => true
  | Some (a, _), Some (b, _) => Nat.eqb a b
  | _, _ => false
  end.

(** [==] on two hashable interface values: same dynamic type and equal
    contents, a pointer being its address.  A promise struct held by
    value is compared field by field, the channel by its closed flag. *)
Fixpoint equal (x y : govalue) : bool :=
  match x, y with
  | VNil, VNil => true
  | VBool a, VBool b => Bool.eqb a b
  | VInt a, VInt b => Z.eqb a b
  | VInt64 a, VInt64 b => Z.eqb a b
  | VString a, VString b => String.eqb a b
  | VPtr e1 t1, VPtr e2 t2 => type_eqb e1 e2 && same_target t1 t2
  | VPromise T1 p1, VPromise T2 p2 =>
      type_eqb T1 T2 && equal (value p1) (value p2)
      && Bool.eqb (ready p1) (ready p2) && Bool.eqb (once p1) (once p2)
  | VArray e1 items1, VArray e2 items2 =>
      type_eqb e1 e2 &&
      (fix all2 (l1 l2 : list govalue) : bool :=
         match l1, l2 with
         | [], [] => true
         | a :: l1', b :: l2' => equal a b && all2 l1' l2'
         | _, _ => false
         end) items1 items2
  | _, _ => false
  end.

(** The runtime's map assignment and deletion on the entry list. *)
Fixpoint mapassign (m : list (govalue * govalue)) (k v : govalue)
  : list (govalue * govalue) :=
  match m with
  | [] => [(k, v)]
  | (k', v') :: m' =>
      if equal k' k then (k', v) :: m' else (k', v') :: mapassign m' k v
  end.

Definition mapdelete (m : list (govalue * govalue)) (k : govalue)
  : list (govalue * govalue) :=
  filter (fun kv => negb (equal (fst kv) k)) m.

(** [m.SetMapIndex(reflect.ValueOf(key), reflect.ValueOf(elem))] on a map
    of type [map[keyT]elemT].  A zero [Value] as key panics; a zero
    [Value] as element deletes the key. *)
Definition SetMapIndex (keyT elemT : gotype) (m : list (govalue * govalue))
           (key elem : govalue) : exec (list (govalue * govalue)) :=
  match TypeOf key with
  | None => Panic (PanicRuntime "reflect: call of reflect.Value.SetMapIndex on zero Value")
  | Some tk =>
      if negb (AssignableTo tk keyT)
      then Panic (PanicRuntime "reflect.Value.SetMapIndex: value is not assignable to type")
      else if negb (hashable key)
      then Panic (PanicRuntime "runtime error: hash of unhashable type")
      else match TypeOf elem with
           | None => Ok (mapdelete m key)
           | Some te =>
               if AssignableTo te elemT then Ok (mapassign m key elem)
               else Panic (PanicRuntime "reflect.Value.SetMapIndex: value is not assignable to type")
           end
  end.

(** [ConvertibleTo] and [Convert] follow the conversion rules of the Go
    release in use; the package is modelled over any such table. *)
Class Conversions : Type := {
  ConvertibleTo : gotype -> gotype -> bool;
  Convert : govalue -> gotype -> exec govalue
}.

Definition is_integer (t : gotype) : bool :=
  match t with
  | TInt | TInt64 => true
  | _ => false
  end.

(** The conversions between identical types, to the empty interface and
    between the two integer types (both 64 bits wide). *)
Definition integer_conversions : Conversions := {|
  ConvertibleTo src dst :=
    type_eqb src dst || type_eqb dst TInterface
    || (is_integer src && is_integer dst);
  Convert v dst :=
    match v, dst with
    | VInt n, TInt64 => Ok (VInt64 n)
    | VInt64 n, TInt => Ok (VInt n)
    | _, _ => Ok v
    end
|}.

End reflect.

(** ** Computations that allocate *)

(** The heap is the next free address; [reflect.New] is the one operation
    that moves it. *)
Definition heap := addr.
Definition M (A : Type) : Type := heap -> exec (A * heap).

Definition ret {A : Type} (a : A) : M A := fun h => Ok (a, h).
Definition throw {A : Type} (e : error) : M A := fun _ => Err e.
Definition raise {A : Type} (p : panic) : M A := fun _ => Panic p.
Definition block {A : Type} : M A := fun _ => Blocked.
Definition lift {A : Type} (m : exec A) : M A :=
  fun h => bind m (fun a => Ok (a, h)).
Definition mbind {A B : Type} (m : M A) (k : A -> M B) : M B :=
  fun h => bind (m h) (fun ah => k (fst ah) (snd ah)).
(** [m] with the error it returns rewritten, as the callers of
    [resolveValue] do with [fmt.Errorf("...: %v", err)]. *)
Definition wrapErr {A : Type} (w : error -> error) (m : M A) : M A :=
  fun h => match m h with
           | Err e => Err (w e)
           | other => other
           end.

Notation "x <- m ;; k" := (mbind m (fun x => k))
  (at level 61, m at next level, right associativity).

(** ** The resolver *)

Definition nilDereference : panic :=
  PanicRuntime "runtime error: invalid memory address or nil pointer dereference".

(** [input.(promiseTypeContract)]: only [*Promise[T]] has the unexported
    method [get]. *)
Definition isPromise (input : govalue) : bool :=
  match input with
  | VPtr (TPromise _) _ => true
  | _ => false
  end.

(** [func (p *Promise[T]) get() interface{}] on what the pointer holds. *)
Definition get (target : option (addr * govalue)) : exec govalue :=
  match target with
  | None => Panic nilDereference
  | Some (_, VPromise _ p) => Get p
  | Some _ => Panic (PanicRuntime "not a promise")
  end.

Section Resolver.

Context {cv : reflect.Conversions}.

(** [func shallowResolve(input interface{}, expectedType reflect.Type)
    (interface{}, error)] *)
Definition shallowResolve (input : govalue) (expectedType : gotype)
  : M govalue :=
  match input with
  | VNil => ret (reflect.Zero expectedType)
  | VPtr (TPromise _) target =>
      resolved <- lift (get target) ;;
      ret resolved
  | _ => ret input
  end.

Section Loops.

(** The body shared by the slice and the array loop:
    [for i := 0; i < inputVal.Len(); i++], resolving
    [inputVal.Index(i).Interface()] and storing the result with
    [Index(i).Set]. *)
Variable resolveElem : govalue -> M govalue.
Variable elemT : gotype.
Variable context : nat -> error -> error.

Fixpoint resolveElems (items : list govalue) (i : nat)
  : M (list govalue) :=
  match items with
  | [] => ret []
  | x :: rest =>
      resolvedElem <- wrapErr (context i) (resolveElem x) ;;
      stored <- lift (reflect.assign elemT resolvedElem) ;;
      others <- resolveElems rest (S i) ;;
      ret (stored :: others)
  end.

(** [for _, key := range inputVal.MapKeys()], filling [newMap]. *)
Variable resolveKey : govalue -> M govalue.
Variable keyT : gotype.

Fixpoint resolveEntries (entries newMap : list (govalue * govalue))
  : M (list (govalue * govalue)) :=
  match entries with
  | [] => ret newMap
  | (key, val) :: rest =>
      resolvedKey <- wrapErr (ErrMapKey key) (resolveKey key) ;;
      resolvedValue <- wrapErr (ErrMapValue resolvedKey) (resolveElem val) ;;
      newMap' <- lift (reflect.SetMapIndex keyT elemT newMap
                         resolvedKey resolvedValue) ;;
      resolveEntries rest newMap'
  end.

End Loops.

(** The [default] case of [resolveValue]: assignable values pass, the
    convertible are converted. *)
Definition resolveBasic (input : govalue) (expectedType : gotype)
  : M govalue :=
  match reflect.TypeOf input with
  | None => raise (PanicRuntime "reflect: call of reflect.Value.Type on zero Value")
  | Some inputType =>
      if reflect.AssignableTo inputType expectedType then ret input
      else if reflect.ConvertibleTo inputType expectedType
      then lift (reflect.Convert input expectedType)
      else throw (ErrCannotConvert inputType expectedType)
  end.

(** [func resolveValue(input interface{}, expectedType reflect.Type)
    (interface{}, error)] *)
Fixpoint resolveValue (input : govalue) (expectedType : gotype)
         {struct input} : M govalue :=
  match input with
  | VNil => ret (reflect.Zero expectedType)
  | VPtr (TPromise _) None => raise nilDereference
  | VPtr (TPromise _) (Some (_, VPromise _ p)) =>
      if ready p then resolveValue (value p) expectedType else block
  | VPtr (TPromise _) (Some _) => raise (PanicRuntime "not a promise")
  | _ =>
      match expectedType with
      | TPtr elemT =>
          match input with
          | VPtr _ None => ret (reflect.Zero expectedType)
          | VPtr _ (Some (_, pointee)) =>
              resolvedElem <- resolveValue pointee elemT ;;
              fun h =>
                let (newPtr, h') := reflect.New elemT h in
                lift (reflect.SetElem newPtr resolvedElem) h'
          | _ => throw (ErrExpectedPointer expectedType (reflect.TypeOf input))
          end
      | TSlice elemT =>
          match input with
          | VSlice _ _ items =>
              newSlice <- resolveElems (fun x => resolveValue x elemT)
                                       elemT ErrSliceElem items 0 ;;
              ret (VSlice elemT false newSlice)
          | _ => throw (ErrExpectedSlice (reflect.kindOf input))
          end
      | TArray len elemT =>
          match input with
          | VArray _ items =>
              if negb (Nat.eqb (List.length items) len)
              then throw (ErrArrayLength len (List.length items))
              else
                fun h =>
                  let (_, h') := reflect.New expectedType h in
                  (newArray <- resolveElems (fun x => resolveValue x elemT)
                                            elemT ErrArrayElem items 0 ;;
                   ret (VArray elemT newArray)) h'
          | _ => throw (ErrExpectedArray (reflect.kindOf input))
          end
      | TMap keyT elemT =>
          match input with
          | VMap _ _ _ entries =>
              newMap <- resolveEntries (fun x => resolveValue x elemT) elemT
                                       (fun x => resolveValue x keyT) keyT
                                       entries [] ;;
              ret (VMap keyT elemT false newMap)
          | _ => throw (ErrExpectedMap (reflect.kindOf input))
          end
      | TInterface => ret input
      | _ => resolveBasic input expectedType
      end
  end.

End Resolver.

(** ** Worker functions *)

(** A Go function as [reflect] sees it: [ft.In(i)], [ft.Out(i)] and
    [fv.Call].  Methods and variadic functions are not supported by the
    package and are not modelled. *)
Record gofunc : Type := mkFunc {
  params : list gotype;
  results : list gotype;
  call : list govalue -> M (list govalue)
}.

(** The [f interface{}] handed to [Async] and [Sync]: a function, or
    anything else. *)
Inductive callee : Type :=
| Func (ft : gofunc)
| NotFunc (v : govalue).

Section Entry.

Context {cv : reflect.Conversions}.

(** The loop of [executeFunction] over [args], from index [i]. *)
Fixpoint resolveArgs (ft : gofunc) (recursive : bool)
         (args : list govalue) (i : nat) : M (list govalue) :=
  match args with
  | [] => ret []
  | arg :: rest =>
      match nth_error (params ft) i with
      | None => raise (PanicRuntime "reflect: Func index out of bounds")
      | Some expectedType =>
          resolved <-
            (fun h =>
               match (if recursive
                      then resolveValue arg expectedType
                      else shallowResolve arg expectedType) h with
               | Err err => Panic (PanicResolveArg i err)
               | other => other
               end) ;;
          resolvedVal <-
            match reflect.TypeOf resolved with
            | None => ret (reflect.Zero expectedType)
            | Some t =>
                if reflect.AssignableTo t expectedType then ret resolved
                else if reflect.ConvertibleTo t expectedType
                then lift (reflect.Convert resolved expectedType)
                else raise (PanicArgType i t expectedType)
            end ;;
          others <- resolveArgs ft recursive rest (S i) ;;
          ret (resolvedVal :: others)
      end
  end.

(** [results[0].Interface().(T)] *)
Definition assertType (T : gotype) (r : govalue) : M govalue :=
  match reflect.TypeOf r with
  | None => raise (PanicReturnType T None)
  | Some t =>
      if reflect.AssignableTo t T then ret r
      else raise (PanicReturnType T (Some t))
  end.

(** [func executeFunction[T any](f interface{}, recursive bool,
    args ...interface{}) T] *)
Definition executeFunction (T : gotype) (f : callee) (recursive : bool)
           (args : list govalue) : M govalue :=
  match f with
  | NotFunc VNil =>
      raise (PanicRuntime "reflect: call of reflect.Value.Type on zero Value")
  | NotFunc _ => raise (PanicNotFunc "pas.executeFunction")
  | Func ft =>
      if negb (Nat.eqb (List.length (results ft)) 1)
      then raise (PanicNumOut (List.length (results ft)))
      else if negb (Nat.eqb (List.length (params ft)) (List.length args))
      then raise (PanicArgCount "pas.executeFunction"
                    (List.length (params ft)) (List.length args))
      else
        resolvedArgs <- resolveArgs ft recursive args 0 ;;
        results <- call ft resolvedArgs ;;
        match results with
        | [r] => assertType T r
        | _ => raise (PanicNumResults (List.length results))
        end
  end.

(** The trailing flag of [Async] and [Sync]:
    [if len(args) == numRequiredArgs+1 { if flag, ok :=
    args[len(args)-1].(bool); ok { recursive = flag; args =
    args[:len(args)-1] } }]. *)
Definition detectFlag (numRequiredArgs : nat) (args : list govalue)
  : bool * list govalue :=
  if Nat.eqb (List.length args) (numRequiredArgs + 1) then
    match last args VNil with
    | VBool flag => (flag, removelast args)
    | _ => (false, args)
    end
  else (false, args).

(** [func Sync[T any](f interface{}, args ...interface{}) T] *)
Definition Sync (T : gotype) (f : callee) (args : list govalue)
  : M govalue :=
  match f with
  | NotFunc _ => raise (PanicNotFunc "Sync")
  | Func ft =>
      let numRequiredArgs := List.length (params ft) in
      let (recursive, args) := detectFlag numRequiredArgs args in
      if negb (Nat.eqb (List.length args) numRequiredArgs)
      then raise (PanicArgCount "Sync" numRequiredArgs (List.length args))
      else executeFunction T f recursive args
  end.

(** What the [go func() { ... }()] of [Async] captures. *)
Record closure : Type := mkClosure {
  captured_f : callee;
  captured_recursive : bool;
  captured_args : list govalue
}.

(** What [Async] leaves behind: the [*Promise[T]] it returns, as the
    address and the state of the promise object, and the goroutine it
    started. *)
Record spawned : Type := mkSpawned {
  promise_addr : addr;
  promise : Promise govalue;
  goroutine : closure
}.

(** [func Async[T any](f interface{}, args ...interface{}) *Promise[T]] *)
Definition Async (T : gotype) (f : callee) (args : list govalue)
  : M spawned :=
  match f with
  | NotFunc _ => raise (PanicNotFunc "Async")
  | Func ft =>
      let numRequiredArgs := List.length (params ft) in
      let (recursive, args) := detectFlag numRequiredArgs args in
      if negb (Nat.eqb (List.length args) numRequiredArgs)
      then raise (PanicArgCount "Async" numRequiredArgs (List.length args))
      else
        fun h =>
          Ok (mkSpawned h (newPending (reflect.Zero T))
                        (mkClosure f recursive args), S h)
  end.

(** The state a goroutine of [Async] works on: the promise it is to
    resolve, the lines written to standard output, and the heap. *)
Record world : Type := mkWorld {
  w_promise : Promise govalue;
  w_stdout : list panic;
  w_heap : heap
}.

(** The body of the goroutine, run to its end: [executeFunction] and
    [p.resolve(output)], under the deferred [recover] that prints the
    panic.  A goroutine that blocks leaves the world as it is. *)
Definition runGoroutine (T : gotype) (c : closure) (w : world) : world :=
  match executeFunction T (captured_f c) (captured_recursive c) (captured_args c)
                        (w_heap w) with
  | Ok (output, h') => mkWorld (resolve output (w_promise w)) (w_stdout w) h'
  | Panic r => mkWorld (w_promise w) (w_stdout w ++ [r]) (w_heap w)
  | Err _ => w
  | Blocked => w
  end.

End Entry.

(** ** Vocabulary of the statements *)

(** A [*Promise[T]] at address [a] whose promise object is in state [p]. *)
Definition promisePtr (T : gotype) (a : addr) (p : Promise govalue) : govalue :=
  VPtr (TPromise T) (Some (a, VPromise T p)).

(** [New(v)] seen as a value: the promise is ready with payload [v]. *)
Definition readyPromise (T : gotype) (a : addr) (v : govalue) : govalue :=
  promisePtr T a (mkPromise v true true).

(** [v] wrapped in one ready promise per layer, outermost first. *)
Fixpoint nest (layers : list (gotype * addr)) (v : govalue) : govalue :=
  match layers with
  | [] => v
  | (T, a) :: rest => readyPromise T a (nest rest v)
  end.

(** [resolvedInOrder resolveElem elemT items out h h']: starting from heap
    [h], each element of [items] in turn resolves to the element of [out] at
    the same index, its result is not the nil interface and is assignable to
    [elemT], and the heap ends as [h']. *)
Inductive resolvedInOrder (resolveElem : govalue -> M govalue)
          (elemT : gotype)
  : list govalue -> list govalue -> heap -> heap -> Prop :=
| resolved_nil (h : heap) : resolvedInOrder resolveElem elemT [] [] h h
| resolved_cons (x y : govalue) (items out : list govalue) (h h1 h2 : heap) :
    resolveElem x h = Ok (y, h1) ->
    reflect.assign elemT y = Ok y ->
    resolvedInOrder resolveElem elemT items out h1 h2 ->
    resolvedInOrder resolveElem elemT (x :: items) (y :: out) h h2.

(** Workers in the style of the test-suite: [Square], [Add] and [SumSlice];
    a function of two results; a function that panics. *)
Definition Square : gofunc :=
  mkFunc [TInt] [TInt]
         (fun args => match args with
                      | [VInt x] => ret [VInt (x * x)]
                      | _ => raise (PanicWorker "Square: ill-typed call")
                      end).

Definition Add : gofunc :=
  mkFunc [TInt; TInt] [TInt]
         (fun args => match args with
                      | [VInt a; VInt b] => ret [VInt (a + b)]
                      | _ => raise (PanicWorker "Add: ill-typed call")
                      end).

Fixpoint sumInts (items : list govalue) : Z :=
  match items with
  | VInt v :: rest => v + sumInts rest
  | _ => 0
  end.

Definition SumSlice : gofunc :=
  mkFunc [TSlice TInt] [TInt]
         (fun args => match args with
                      | [VSlice TInt _ arr] => ret [VInt (sumInts arr)]
                      | _ => raise (PanicWorker "SumSlice: ill-typed call")
                      end).

Definition DivMod : gofunc :=
  mkFunc [TInt; TInt] [TInt; TInt]
         (fun args => match args with
                      | [VInt a; VInt b] => ret [VInt (a / b); VInt (a mod b)]
                      | _ => raise (PanicWorker "DivMod: ill-typed call")
                      end).

Definition Explode : gofunc :=
  mkFunc [TInt] [TInt] (fun _ => raise (PanicWorker "boom")).

(** ** Container factories *)

(** [New[T]()] and [NewPending[T]()] as the pointer they return: the promise
    object is allocated at the next free address. *)
Definition newPromisePtr (T : gotype) : M govalue :=
  fun h => bind (New (reflect.Zero T) [])
                (fun p => Ok (promisePtr T h p, S h)).

Definition newPendingPtr (T : gotype) : M govalue :=
  fun h => Ok (promisePtr T h (newPending (reflect.Zero T)), S h).

(** [for i := range slice { slice[i] = make() }] over a slice of [n]
    elements. *)
Fixpoint fillSlice (make : M govalue) (n : nat) : M (list govalue) :=
  match n with
  | O => ret []
  | S n' =>
      p <- make ;;
      others <- fillSlice make n' ;;
      ret (p :: others)
  end.

(** [make([]*Promise[T], length, cap)] as the runtime's [makeslice] guards
    it, [maxElems] being the most pointers it will allocate at once
    ([maxAlloc] over the size of a pointer): a capacity that is negative,
    too large or below the length, or a negative length, is refused, with
    the complaint about the length when the length alone is out of range.
    The capacity itself is not part of a slice value here. *)
Definition makeslice (maxElems length cap : Z) : M nat :=
  if (cap <? 0)%Z || (maxElems <? cap)%Z || (length <? 0)%Z || (cap <? length)%Z
  then
    if (length <? 0)%Z || (maxElems <? length)%Z
    then raise (PanicRuntime "runtime error: makeslice: len out of range")
    else raise (PanicRuntime "runtime error: makeslice: cap out of range")
  else ret (Z.to_nat length).

(** [func MakeSlice[T any](length int, capacity ...int) []*Promise[T]] *)
Definition MakeSlice (maxElems : Z) (T : gotype) (length : Z)
           (capacity : list Z) : M govalue :=
  let cap := match capacity with
             | [] => length
             | c :: _ => c
             end in
  n <- makeslice maxElems length cap ;;
  slice <- fillSlice (newPromisePtr T) n ;;
  ret (VSlice (TPtr (TPromise T)) false slice).

(** [func MakePendingSlice[T any](length int, capacity ...int)
    []*Promise[T]] *)
Definition MakePendingSlice (maxElems : Z) (T : gotype) (length : Z)
           (capacity : list Z) : M govalue :=
  let cap := match capacity with
             | [] => length
             | c :: _ => c
             end in
  n <- makeslice maxElems length cap ;;
  slice <- fillSlice (newPendingPtr T) n ;;
  ret (VSlice (TPtr (TPromise T)) false slice).

(** ** The resolver of the first generations *)

(** [func shallowResolveArgs(args ...interface{}) []reflect.Value], which is
    [resolveArgs] of the generations before the flag: a promise is replaced
    by what [get] returns, anything else is kept, and each is wrapped with
    [reflect.ValueOf], so that nil stays the zero [Value]. *)
Fixpoint shallowResolveArgs (args : list govalue) : exec (list govalue) :=
  match args with
  | [] => Ok []
  | arg :: rest =>
      bind (match arg with
            | VPtr (TPromise _) target => get target
            | _ => Ok arg
            end)
           (fun value => bind (shallowResolveArgs rest)
                              (fun others => Ok (value :: others)))
  end.

(** [entriesResolved resolveKey keyT resolveElem elemT entries out h h']:
    starting from heap [h], for each entry in turn the key and then the
    value resolve, to a key that [SetMapIndex] accepts (of a type assignable
    to [keyT], hashable) and to a value it stores (of a type assignable to
    [elemT]); [out] lists the resolved entries and the heap ends as [h']. *)
Inductive entriesResolved (resolveKey : govalue -> M govalue) (keyT : gotype)
          (resolveElem : govalue -> M govalue) (elemT : gotype)
  : list (govalue * govalue) -> list (govalue * govalue) -> heap -> heap
    -> Prop :=
| entries_nil (h : heap) :
    entriesResolved resolveKey keyT resolveElem elemT [] [] h h
| entries_cons (key val k v : govalue) (rest out : list (govalue * govalue))
               (h h1 h2 h3 : heap) (tk tv : gotype) :
    resolveKey key h = Ok (k, h1) ->
    resolveElem val h1 = Ok (v, h2) ->
    reflect.TypeOf k = Some tk -> reflect.AssignableTo tk keyT = true ->
    reflect.hashable k = true ->
    reflect.TypeOf v = Some tv -> reflect.AssignableTo tv elemT = true ->
    entriesResolved resolveKey keyT resolveElem elemT rest out h2 h3 ->
    entriesResolved resolveKey keyT resolveElem elemT
                    ((key, val) :: rest) ((k, v) :: out) h h3.

(** No key of [l] is [==] to a key later in [l]. *)
Definition distinctKeys (l : list (govalue * govalue)) : Prop :=
  ForallOrdPairs (fun a b => reflect.equal (fst a) (fst b) = false) l.

(** ** The generation before the flag *)

(** [fv.Call(in)] as [reflect] guards it: the number of arguments, none of
    them the zero [Value], each assignable to its parameter; then the
    function runs. *)
Definition Call (ft : gofunc) (ins : list govalue) : M (list govalue) :=
  if Nat.ltb (List.length ins) (List.length (params ft))
  then raise (PanicRuntime "reflect: Call with too few input arguments")
  else if Nat.ltb (List.length (params ft)) (List.length ins)
  then raise (PanicRuntime "reflect: Call with too many input arguments")
  else if existsb (fun x => match reflect.TypeOf x with
                            | None => true
                            | Some _ => false
                            end) ins
  then raise (PanicRuntime "reflect: Call using zero Value argument")
  else if negb (forallb (fun xt => match reflect.TypeOf (fst xt) with
                                   | None => false
                                   | Some t => reflect.AssignableTo t (snd xt)
                                   end)
                        (combine ins (params ft)))
  then raise (PanicRuntime "reflect: Call using value of another type")
  else call ft ins.

Module v1.

(** [func resolveArgs(args ...interface{}) []reflect.Value] *)
Definition resolveArgs (args : list govalue) : exec (list govalue) :=
  shallowResolveArgs args.

(** [func executeFunction[T any](f interface{}, args ...interface{}) T]:
    the arguments are resolved first, then [f] is looked at. *)
Definition executeFunction (T : gotype) (f : callee) (args : list govalue)
  : M govalue :=
  resolvedArgs <- lift (resolveArgs args) ;;
  match f with
  | NotFunc _ => raise (PanicNotFunc "pas.executeFunction")
  | Func ft =>
      if negb (Nat.eqb (List.length (results ft)) 1)
      then raise (PanicNumOut (List.length (results ft)))
      else
        results <- Call ft resolvedArgs ;;
        match results with
        | [r] => assertType T r
        | _ => raise (PanicNumResults (List.length results))
        end
  end.

(** [func Sync[T any](f interface{}, args ...interface{}) T] *)
Definition Sync (T : gotype) (f : callee) (args : list govalue) : M govalue :=
  executeFunction T f args.

(** [func Async[T any](f interface{}, args ...interface{}) *Promise[T]]:
    the address and state of the promise it returns; its goroutine has [f]
    and [args]. *)
Definition Async (T : gotype) (f : callee) (args : list govalue)
  : M (addr * Promise govalue) :=
  fun h => Ok ((h, newPending (reflect.Zero T)), S h).

(** The goroutine of [Async], run to its end.  Nothing recovers a panic
    here: it ends the program. *)
Definition runGoroutine (T : gotype) (f : callee) (args : list govalue)
           (w : world) : exec world :=
  match executeFunction T f args (w_heap w) with
  | Ok (output, h') =>
      Ok (mkWorld (resolve output (w_promise w)) (w_stdout w) h')
  | Err e => Err e
  | Panic r => Panic r
  | Blocked => Blocked
  end.

End v1.

(** ** Arguments and what they deliver *)

(** [v] can be passed where a [t] is expected. *)
Definition typed (v : govalue) (t : gotype) : Prop :=
  exists tv, reflect.TypeOf v = Some tv /\ reflect.AssignableTo tv t = true.

(** An argument and what shallow mode makes of it: a plain value is itself,
    a ready promise is its payload. *)
Definition shallowArg (arg payload : govalue) : Prop :=
  (arg = payload /\ isPromise arg = false) \/
  exists T a, arg = readyPromise T a payload.

(** An argument and what recursive mode makes of it against a basic type:
    the value under however many ready promises. *)
Definition deepArg (arg payload : govalue) : Prop :=
  isPromise payload = false /\ exists layers, arg = nest layers payload.

Definition basic (t : gotype) : bool :=
  match t with
  | TBool | TInt | TInt64 | TString => true
  | _ => false
  end.

(** [results := fv.Call(resolvedArgs)] and the checks on [results] that
    end [executeFunction]. *)
Definition invoke (T : gotype) (ft : gofunc) (resolvedArgs : list govalue)
  : M govalue :=
  results <- call ft resolvedArgs ;;
  match results with
  | [r] => assertType T r
  | _ => raise (PanicNumResults (List.length results))
  end.

(** ** Induction on values *)

Section NestedInduction.

Variable P : govalue -> Prop.

Hypothesis HNil : P VNil.
Hypothesis HBool : forall b, P (VBool b).
Hypothesis HInt : forall n, P (VInt n).
Hypothesis HInt64 : forall n, P (VInt64 n).
Hypothesis HString : forall s, P (VString s).
Hypothesis HPtrNil : forall elem, P (VPtr elem None).
Hypothesis HPtr :
  forall elem a pointee, P pointee -> P (VPtr elem (Some (a, pointee))).
Hypothesis HSlice :
  forall elem isnil items, Forall P items -> P (VSlice elem isnil items).
Hypothesis HArray :
  forall elem items, Forall P items -> P (VArray elem items).
Hypothesis HMap :
  forall key elem isnil entries,
    Forall (fun kv => P (fst kv) /\ P (snd kv)) entries ->
    P (VMap key elem isnil entries).
Hypothesis HPromise : forall T p, P (value p) -> P (VPromise T p).

Fixpoint govalue_nested_ind (v : govalue) : P v :=
  match v with
  | VNil => HNil
  | VBool b => HBool b
  | VInt n => HInt n
  | VInt64 n => HInt64 n
  | VString s => HString s
  | VPtr elem None => HPtrNil elem
  | VPtr elem (Some (a, pointee)) => HPtr elem a (govalue_nested_ind pointee)
  | VSlice elem isnil items =>
      HSlice elem isnil
             ((fix all (l : list govalue) : Forall P l :=
                 match l with
                 | [] => Forall_nil P
                 | x :: l' => Forall_cons x (govalue_nested_ind x) (all l')
                 end) items)
  | VArray elem items =>
      HArray elem
             ((fix all (l : list govalue) : Forall P l :=
                 match l with
                 | [] => Forall_nil P
                 | x :: l' => Forall_cons x (govalue_nested_ind x) (all l')
                 end) items)
  | VMap key elem isnil entries =>
      HMap key elem isnil
           ((fix all (l : list (govalue * govalue))
               : Forall (fun kv => P (fst kv) /\ P (snd kv)) l :=
               match l with
               | [] => Forall_nil _
               | (k, x) :: l' =>
                   Forall_cons (k, x)
                               (conj (govalue_nested_ind k)
                                     (govalue_nested_ind x))
                               (all l')
               end) entries)
  | VPromise T p => HPromise T p (govalue_nested_ind (value p))
  end.

End NestedInduction.

(** * Properties *)

(** ** The promise state machine *)

Section PromiseFacts.

Variable T : Type.
Variable zeroT : T.

Lemma resolve_done (v : T) (p : Promise T) :
  once p = true -> resolve v p = p.
Proof.
  intros Hp. unfold resolve, onceDo. now rewrite Hp.
Qed.

Lemma resolve_fresh (v : T) (p : Promise T) :
  once p = false -> resolve v p = mkPromise v true true.
Proof.
  intros Hp. unfold resolve, onceDo. now rewrite Hp.
Qed.

Lemma resolve_once (v : T) (p : Promise T) : once (resolve v p) = true.
Proof.
  destruct (once p) eqn:Hp.
  - now rewrite resolve_done.
  - now rewrite resolve_fresh.
Qed.

Lemma resolve_wf (v : T) (p : Promise T) : wf p -> wf (resolve v p).
Proof.
  intros Hwf. destruct (once p) eqn:Hp.
  - now rewrite resolve_done.
  - now rewrite resolve_fresh.
Qed.

Lemma step_wf (p : Promise T) (o : op T) : wf p -> wf (step p o).
Proof.
  destruct o; cbn; auto using resolve_wf.
Qed.

Lemma run_wf (ops : list (op T)) :
  forall p, wf p -> wf (run ops p).
Proof.
  induction ops as [|o ops IH]; intros p Hwf; cbn; auto using step_wf.
  apply IH. now apply step_wf.
Qed.

Lemma run_done (ops : list (op T)) :
  forall p, once p = true -> run ops p = p.
Proof.
  induction ops as [|o ops IH]; intros p Hp; cbn; [reflexivity|].
  destruct o as [v|]; cbn.
  - rewrite resolve_done by assumption. now apply IH.
  - now apply IH.
Qed.

Lemma newPending_wf : wf (newPending zeroT).
Proof. reflexivity. Qed.

Lemma New_wf (values : list T) (p : Promise T) :
  New zeroT values = Ok p -> wf p /\ ready p = true.
Proof.
  destruct values as [|v [|v' values]]; cbn; intros H; inversion H; now split.
Qed.

End PromiseFacts.

(** C1, as the code has it.  [newPending] and [New] create states in which
    the channel is closed exactly when the once has run, and [resolve] and
    [Get] keep it so.  Until the channel is closed [Get] blocks.  Once a
    promise is ready no sequence of [resolve] and [Get] changes it, so every
    [Get] returns the value it was ready with; a second [resolve] never has
    an effect.  On a promise that is still pending, [resolve v1] followed by
    any operations, [resolve v2] among them, makes every [Get] return [v1]. *)
Theorem promise_single_assignment (T : Type) (zeroT : T) :
  wf (newPending zeroT) /\
  (forall values p, New zeroT values = Ok p -> wf p /\ ready p = true) /\
  (forall v p ops, New zeroT [v] = Ok p -> Get (run ops p) = Ok v) /\
  (forall p : Promise T,
      wf p ->
      (forall ops, wf (run ops p)) /\
      (ready p = true ->
       forall ops, run ops p = p /\ Get (run ops p) = Ok (value p)) /\
      (forall v1 v2, resolve v2 (resolve v1 p) = resolve v1 p) /\
      (ready p = false ->
       Get p = Blocked /\
       forall v1 v2 ops,
         Get (resolve v2 (resolve v1 p)) = Ok v1 /\
         Get (run ops (resolve v1 p)) = Ok v1)).
Proof.
  split; [apply newPending_wf|]. split; [apply New_wf|].
  split.
  { intros v p ops H. cbn in H. inversion H; subst.
    now rewrite run_done. }
  intros p Hwf.
  assert (Hstep : ready p = once p) by exact Hwf.
  split; [|split; [|split]].
  - intros ops. now apply run_wf.
  - intros Hready ops.
    assert (Hrun : run ops p = p) by (apply run_done; congruence).
    split; [exact Hrun|].
    rewrite Hrun. unfold Get. now rewrite Hready.
  - intros v1 v2. apply resolve_done, resolve_once.
  - intros Hpending. split; [unfold Get; now rewrite Hpending|].
    intros v1 v2 ops.
    assert (Hfirst : resolve v1 p = mkPromise v1 true true)
      by (apply resolve_fresh; congruence).
    split.
    + rewrite (resolve_done v2) by apply resolve_once.
      now rewrite Hfirst.
    + rewrite run_done by apply resolve_once.
      now rewrite Hfirst.
Qed.

Lemma promise_single_assignment_witness :
  wf (newPending 0%Z) /\
  Get (resolve 2%Z (resolve 1%Z (newPending 0%Z))) = Ok 1%Z.
Proof.
  split; [reflexivity|].
  destruct (promise_single_assignment 0%Z) as (Hwf & _ & _ & H).
  destruct (H (newPending 0%Z) Hwf) as (_ & _ & _ & Hpending).
  exact (proj1 (proj2 (Hpending eq_refl) 1%Z 2%Z [])).
Defined.

(** C1 as stated fails on a promise built by [New]: it is ready from the
    start, both calls of [resolve] are without effect and [Get] returns the
    value given to [New], not [v1]. *)
Lemma resolve_after_New_keeps_initial_value :
  bind (New 0%Z [5%Z]) (fun p => Get (resolve 2%Z (resolve 1%Z p))) = Ok 5%Z /\
  bind (New 0%Z [5%Z]) (fun p => Get (resolve 2%Z (resolve 1%Z p))) <> Ok 1%Z.
Proof.
  split; [reflexivity | discriminate].
Qed.

(** C5.  [New(v)] is ready with [v] and [New[T]()] is ready with the zero
    value of [T], so that [Get] returns at once; more than one value makes
    [New] panic with the number of values it got. *)
Theorem New_is_ready (T : Type) (zeroT : T) :
  (forall v, exists p,
      New zeroT [v] = Ok p /\ ready p = true /\ Get p = Ok v) /\
  (exists p, New zeroT [] = Ok p /\ ready p = true /\ Get p = Ok zeroT) /\
  (forall v1 v2 values,
      New zeroT (v1 :: v2 :: values)
      = Panic (PanicNewArity (2 + List.length values))).
Proof.
  split; [|split].
  - intros v. eexists. repeat split.
  - eexists. repeat split.
  - reflexivity.
Qed.

(** [New[int]()] in the universe of Go values. *)
Example New_int_zero :
  bind (New (reflect.Zero TInt) []) (@Get govalue) = Ok (VInt 0).
Proof. reflexivity. Qed.

(** ** The resolver on promises *)

Section ResolverFacts.

Context {cv : reflect.Conversions}.

(** The promise case of [resolveValue] in the words of the source:
    [resolved := promise.get(); return resolveValue(resolved, expectedType)]. *)
Lemma resolveValue_get (T : gotype) (target : option (addr * govalue))
      (expectedType : gotype) (h : heap) :
  resolveValue (VPtr (TPromise T) target) expectedType h
  = (resolved <- lift (get target) ;; resolveValue resolved expectedType) h.
Proof.
  destruct target as [[a v]|]; [|reflexivity].
  destruct v; try reflexivity.
  unfold mbind, lift, get, Get; cbn.
  destruct (ready p); reflexivity.
Qed.

Lemma resolveValue_promisePtr (T : gotype) (a : addr) (p : Promise govalue)
      (expectedType : gotype) (h : heap) :
  resolveValue (promisePtr T a p) expectedType h
  = if ready p then resolveValue (value p) expectedType h else Blocked.
Proof.
  unfold promisePtr; cbn. destruct (ready p); reflexivity.
Qed.

Lemma resolveValue_nest (layers : list (gotype * addr)) (v : govalue)
      (expectedType : gotype) (h : heap) :
  resolveValue (nest layers v) expectedType h = resolveValue v expectedType h.
Proof.
  induction layers as [|[T a] layers IH]; [reflexivity|].
  cbn [nest]. unfold readyPromise. now rewrite resolveValue_promisePtr.
Qed.

(** C3.  On a promise [resolveValue] calls [get], which blocks until the
    promise is ready, and resolves the payload against the same expected
    type; through any number of nested ready promises it therefore returns
    what the innermost value resolves to, and it blocks when a promise on the
    way is pending. *)
Theorem resolveValue_transitive :
  (forall T target expectedType h,
      resolveValue (VPtr (TPromise T) target) expectedType h
      = (resolved <- lift (get target) ;;
         resolveValue resolved expectedType) h) /\
  (forall T a p expectedType h,
      resolveValue (promisePtr T a p) expectedType h
      = if ready p then resolveValue (value p) expectedType h else Blocked) /\
  (forall layers v expectedType h,
      resolveValue (nest layers v) expectedType h
      = resolveValue v expectedType h) /\
  (forall layers T a v expectedType h,
      resolveValue (nest layers (promisePtr T a (newPending v))) expectedType h
      = Blocked).
Proof.
  split; [|split; [|split]].
  - apply resolveValue_get.
  - apply resolveValue_promisePtr.
  - apply resolveValue_nest.
  - intros. rewrite resolveValue_nest. apply resolveValue_promisePtr.
Qed.

(** ** Shallow resolution *)

(** C9.  [shallowResolve] turns nil into the zero value of the expected
    type, a promise into its payload as [get] returns it, with no look at
    what the payload is, and hands back every other argument as it came,
    whatever promises it contains.  It never allocates. *)
Theorem shallowResolve_top_level_only (input : govalue)
        (expectedType : gotype) (h : heap) :
  (input = VNil ->
   shallowResolve input expectedType h = Ok (reflect.Zero expectedType, h)) /\
  (forall T a p,
      input = promisePtr T a p ->
      shallowResolve input expectedType h
      = if ready p then Ok (value p, h) else Blocked) /\
  (input <> VNil -> isPromise input = false ->
   shallowResolve input expectedType h = Ok (input, h)).
Proof.
  split; [|split].
  - intros ->. reflexivity.
  - intros T a p ->. unfold promisePtr, shallowResolve, mbind, lift, get, Get.
    cbn. destruct (ready p); reflexivity.
  - intros Hnil Hpromise.
    destruct input as [| | | | |elem target| | | |]; try reflexivity.
    + congruence.
    + destruct elem; try reflexivity. discriminate.
Qed.

Lemma shallowResolve_top_level_only_witness :
  shallowResolve (VSlice (TPtr (TPromise TInt)) false [readyPromise TInt 0 (VInt 1)])
                 (TSlice TInt) 7
  = Ok (VSlice (TPtr (TPromise TInt)) false [readyPromise TInt 0 (VInt 1)], 7).
Proof.
  apply (shallowResolve_top_level_only
           (VSlice (TPtr (TPromise TInt)) false [readyPromise TInt 0 (VInt 1)])
           (TSlice TInt) 7); [discriminate | reflexivity].
Defined.

(** A promise of a promise comes back from [shallowResolve] as the inner
    promise, unresolved. *)
Example shallowResolve_one_layer :
  shallowResolve (nest [(TPtr (TPromise TInt), 0); (TInt, 1)] (VInt 9)) TInt 7
  = Ok (readyPromise TInt 1 (VInt 9), 7).
Proof. reflexivity. Qed.

(** ** Arrays *)

Lemma resolveValue_not_array (input : govalue) (len : nat) (elemT : gotype)
      (h : heap) :
  input <> VNil -> isPromise input = false ->
  reflect.kindOf input <> KArray ->
  resolveValue input (TArray len elemT) h
  = Err (ErrExpectedArray (reflect.kindOf input)).
Proof.
  intros Hnil Hpromise Hkind.
  destruct input as [| | | | |elem target| | | |]; try reflexivity.
  - congruence.
  - destruct elem; try reflexivity. discriminate.
  - exfalso. apply Hkind. reflexivity.
Qed.

Lemma resolveValue_array_length (elem : gotype) (items : list govalue)
      (len : nat) (elemT : gotype) (h : heap) :
  List.length items <> len ->
  resolveValue (VArray elem items) (TArray len elemT) h
  = Err (ErrArrayLength len (List.length items)).
Proof.
  intros Hlen. cbn.
  destruct (Nat.eqb_spec (List.length items) len); [contradiction|].
  reflexivity.
Qed.

(** C7, as the code has it.  Against a fixed-size array type the resolver
    first asks that the input be an array: a slice, or any other value that
    is neither nil nor a promise nor an array, fails with the error that
    names its kind, whatever its length.  An array whose length differs from
    the expected one fails with the length error, before any element is
    looked at. *)
Theorem array_shape_then_length (input : govalue) (len : nat)
        (elemT : gotype) (h : heap)
        (Hnil : input <> VNil) (Hpromise : isPromise input = false) :
  (reflect.kindOf input <> KArray ->
   resolveValue input (TArray len elemT) h
   = Err (ErrExpectedArray (reflect.kindOf input))) /\
  (forall elem isnil items,
      input = VSlice elem isnil items ->
      resolveValue input (TArray len elemT) h = Err (ErrExpectedArray KSlice)) /\
  (forall elem items,
      input = VArray elem items -> List.length items <> len ->
      resolveValue input (TArray len elemT) h
      = Err (ErrArrayLength len (List.length items))).
Proof.
  split; [|split].
  - now apply resolveValue_not_array.
  - intros elem isnil items ->. reflexivity.
  - intros elem items -> Hlen. now apply resolveValue_array_length.
Qed.

End ResolverFacts.

Lemma array_shape_then_length_witness :
  resolveValue (cv := reflect.integer_conversions)
               (VArray TInt [VInt 1; VInt 2]) (TArray 3 TInt) 0
  = Err (ErrArrayLength 3 2).
Proof.
  refine (proj2 (proj2 (array_shape_then_length
                          (cv := reflect.integer_conversions)
                          (input := VArray TInt [VInt 1; VInt 2])
                          3 TInt 0 _ _)) TInt [VInt 1; VInt 2] eq_refl _);
    [discriminate | reflexivity | cbn; lia].
Defined.

(** C7 as stated fails on a slice of two elements resolved against [[3]int]:
    the error is the one for a value that is not an array, not the length
    error. *)
Lemma slice_against_array_is_not_a_length_error :
  resolveValue (cv := reflect.integer_conversions)
               (VSlice TInt false [VInt 1; VInt 2]) (TArray 3 TInt) 0
  = Err (ErrExpectedArray KSlice) /\
  resolveValue (cv := reflect.integer_conversions)
               (VSlice TInt false [VInt 1; VInt 2]) (TArray 3 TInt) 0
  <> Err (ErrArrayLength 3 2).
Proof.
  split; [reflexivity | discriminate].
Qed.

(** ** The entry operations *)

Section EntryFacts.

Context {cv : reflect.Conversions}.

Lemma detectFlag_exact (numRequiredArgs : nat) (args : list govalue) :
  List.length args = numRequiredArgs ->
  detectFlag numRequiredArgs args = (false, args).
Proof.
  intros Hlen. unfold detectFlag.
  destruct (Nat.eqb_spec (List.length args) (numRequiredArgs + 1)); [lia|].
  reflexivity.
Qed.

Lemma detectFlag_with_flag (numRequiredArgs : nat) (args : list govalue)
      (flag : bool) :
  List.length args = numRequiredArgs ->
  detectFlag numRequiredArgs (args ++ [VBool flag]) = (flag, args).
Proof.
  intros Hlen. unfold detectFlag.
  rewrite length_app, Hlen, Nat.eqb_refl, last_last, removelast_last.
  reflexivity.
Qed.





End EntryFacts.

(** Without the flag a slice of promises reaches the assignability check
    unresolved and the call panics; with a trailing [true] it is resolved. *)
Example Sync_slice_of_promises_shallow :
  Sync (cv := reflect.integer_conversions) TInt (Func SumSlice)
       [VSlice (TPtr (TPromise TInt)) false
               [readyPromise TInt 0 (VInt 1); readyPromise TInt 1 (VInt 2)]] 2
  = Panic (PanicArgType 0 (TSlice (TPtr (TPromise TInt))) (TSlice TInt)).
Proof. reflexivity. Qed.

Example Sync_slice_of_promises_recursive :
  Sync (cv := reflect.integer_conversions) TInt (Func SumSlice)
       [VSlice (TPtr (TPromise TInt)) false
               [readyPromise TInt 0 (VInt 1); readyPromise TInt 1 (VInt 2)];
        VBool true] 2
  = Ok (VInt 3, 2).
Proof. reflexivity. Qed.

(** [Sync(Add, Async(Square, 3), Async(Square, 4))], the promises taken in
    the state their goroutines leave them in. *)
Example Sync_Add_of_squares :
  Sync (cv := reflect.integer_conversions) TInt (Func Add)
       [readyPromise TInt 0 (VInt 9); readyPromise TInt 1 (VInt 16)] 2
  = Ok (VInt 25, 2).
Proof. reflexivity. Qed.


(** ** Validation and panics *)

Section ValidationFacts.

Context {cv : reflect.Conversions}.

Lemma executeFunction_NumOut (T : gotype) (ft : gofunc) (recursive : bool)
      (args : list govalue) (h : heap) :
  List.length (results ft) <> 1 ->
  executeFunction T (Func ft) recursive args h
  = Panic (PanicNumOut (List.length (results ft))).
Proof.
  intros Hout. unfold executeFunction.
  destruct (Nat.eqb_spec (List.length (results ft)) 1); [contradiction|].
  reflexivity.
Qed.

(** A panic of the worker is a panic of [executeFunction]. *)
Lemma executeFunction_worker_panic (T : gotype) (ft : gofunc)
      (recursive : bool) (args resolvedArgs : list govalue) (h h1 : heap)
      (r : panic) :
  List.length (results ft) = 1 ->
  List.length (params ft) = List.length args ->
  resolveArgs ft recursive args 0 h = Ok (resolvedArgs, h1) ->
  call ft resolvedArgs h1 = Panic r ->
  executeFunction T (Func ft) recursive args h = Panic r.
Proof.
  intros Hout Hin Hargs Hcall. unfold executeFunction.
  rewrite Hout, Hin, !Nat.eqb_refl. cbn [negb].
  unfold mbind. rewrite Hargs. cbn. now rewrite Hcall.
Qed.

(** C8, as the code has it.  [Sync] and [Async] both refuse, at the call, an
    [f] that is not a function and an argument list that, the trailing flag
    stripped, is not as long as the parameter list.  The number of results
    is checked by [executeFunction]: [Sync] panics with it at the call;
    [Async] has by then returned a pending promise, and the panic is raised
    in the goroutine, printed there, and the promise is left pending. *)
Theorem validation_at_the_call (T : gotype) (f : callee)
        (args : list govalue) (h : heap) :
  (forall v, f = NotFunc v ->
             Sync T f args h = Panic (PanicNotFunc "Sync") /\
             Async T f args h = Panic (PanicNotFunc "Async")) /\
  (forall ft recursive args',
      f = Func ft ->
      detectFlag (List.length (params ft)) args = (recursive, args') ->
      (List.length args' <> List.length (params ft) ->
       Sync T f args h
       = Panic (PanicArgCount "Sync" (List.length (params ft))
                              (List.length args')) /\
       Async T f args h
       = Panic (PanicArgCount "Async" (List.length (params ft))
                              (List.length args'))) /\
      (List.length args' = List.length (params ft) ->
       List.length (results ft) <> 1 ->
       Sync T f args h = Panic (PanicNumOut (List.length (results ft))) /\
       Async T f args h
       = Ok (mkSpawned h (newPending (reflect.Zero T))
                       (mkClosure f recursive args'), S h) /\
       forall w,
         runGoroutine T (mkClosure f recursive args') w
         = mkWorld (w_promise w)
                   (w_stdout w ++ [PanicNumOut (List.length (results ft))])
                   (w_heap w))).
Proof.
  split.
  - intros v ->. split; reflexivity.
  - intros ft recursive args' -> Hflag. split.
    + intros Hlen. unfold Sync, Async. rewrite Hflag.
      destruct (Nat.eqb_spec (List.length args') (List.length (params ft)));
        [contradiction|].
      split; reflexivity.
    + intros Hlen Hout. unfold Sync, Async. rewrite Hflag.
      rewrite Hlen, Nat.eqb_refl. cbn [negb].
      split; [now apply executeFunction_NumOut|].
      split; [reflexivity|].
      intros w. unfold runGoroutine. cbn [captured_f captured_recursive captured_args].
      now rewrite executeFunction_NumOut.
Qed.

(** C4.  When [executeFunction] panics in the goroutine of an [Async] call,
    as it does when the worker panics, the goroutine prints the panic and
    ends without having called [resolve]: the promise [Async] returned is
    still the pending one, and [Get] on it blocks, however often it is
    called. *)
Theorem async_panic_leaves_promise_pending (T : gotype) (f : callee)
        (args : list govalue) (h h' : heap) (s : spawned) (w : world)
        (r : panic)
        (Hcall : Async T f args h = Ok (s, h'))
        (Hpromise : w_promise w = promise s)
        (Hpanic : executeFunction T (captured_f (goroutine s))
                                  (captured_recursive (goroutine s))
                                  (captured_args (goroutine s)) (w_heap w)
                  = Panic r) :
  w_stdout (runGoroutine T (goroutine s) w) = w_stdout w ++ [r] /\
  w_promise (runGoroutine T (goroutine s) w) = newPending (reflect.Zero T) /\
  ready (w_promise (runGoroutine T (goroutine s) w)) = false /\
  forall n,
    Get (run (repeat (OpGet govalue) n)
             (w_promise (runGoroutine T (goroutine s) w))) = Blocked.
Proof.
  assert (Hs : promise s = newPending (reflect.Zero T)).
  { unfold Async in Hcall. destruct f as [ft|v]; [|discriminate].
    destruct (detectFlag (List.length (params ft)) args) as [recursive args'].
    destruct (negb (Nat.eqb (List.length args') (List.length (params ft))));
      [discriminate|].
    inversion Hcall. reflexivity. }
  unfold runGoroutine. rewrite Hpanic. cbn [w_stdout w_promise].
  rewrite Hpromise, Hs.
  repeat split.
  intros n. induction n as [|n IH]; [reflexivity|exact IH].
Qed.

End ValidationFacts.

Lemma validation_at_the_call_witness :
  Async TInt (Func DivMod)
        [VInt 7; VInt 2] 0
  = Ok (mkSpawned 0 (newPending (VInt 0))
                  (mkClosure (Func DivMod) false [VInt 7; VInt 2]), 1).
Proof.
  refine (proj1 (proj2 (proj2 (proj2 (validation_at_the_call
            (cv := reflect.integer_conversions) TInt (Func DivMod)
            [VInt 7; VInt 2] 0) DivMod false [VInt 7; VInt 2]
            eq_refl eq_refl) eq_refl _)));
    cbn; lia.
Defined.

(** C8 as stated fails on [Async] with a function of two results: the call
    returns a pending promise, and the panic about the number of results is
    raised and printed in the goroutine. *)
Lemma Async_checks_results_in_goroutine :
  Async TInt (Func DivMod)
        [VInt 7; VInt 2] 0
  = Ok (mkSpawned 0 (newPending (VInt 0))
                  (mkClosure (Func DivMod) false [VInt 7; VInt 2]), 1) /\
  Async TInt (Func DivMod)
        [VInt 7; VInt 2] 0
  <> Panic (PanicNumOut 2) /\
  runGoroutine (cv := reflect.integer_conversions) TInt
               (mkClosure (Func DivMod) false [VInt 7; VInt 2])
               (mkWorld (newPending (VInt 0)) [] 1)
  = mkWorld (newPending (VInt 0)) [PanicNumOut 2] 1.
Proof.
  split; [reflexivity|]. split; [discriminate | reflexivity].
Qed.

Lemma async_panic_leaves_promise_pending_witness :
  Get (w_promise
         (runGoroutine (cv := reflect.integer_conversions) TInt
                       (mkClosure (Func Explode) false [VInt 1])
                       (mkWorld (newPending (VInt 0)) [] 1)))
  = Blocked.
Proof.
  refine (proj2 (proj2 (proj2 (@async_panic_leaves_promise_pending
            reflect.integer_conversions TInt (Func Explode) [VInt 1] 0 1
            (mkSpawned 0 (newPending (VInt 0))
                       (mkClosure (Func Explode) false [VInt 1]))
            (mkWorld (newPending (VInt 0)) [] 1)
            (PanicWorker "boom") _ _ _))) 0);
    reflexivity.
Defined.

(** ** Containers and pointers *)

Section ContainerFacts.

Context {cv : reflect.Conversions}.

Lemma assign_Ok (t : gotype) (x y : govalue) :
  reflect.assign t x = Ok y -> y = x /\ x <> VNil.
Proof.
  unfold reflect.assign. destruct x; cbn; try discriminate;
    match goal with
    | |- context [if ?b then _ else _] => destruct b
    end; intros H; inversion H; split; congruence.
Qed.

Lemma assign_Ok_same (t : gotype) (x y : govalue) :
  reflect.assign t x = Ok y -> reflect.assign t x = Ok x.
Proof.
  intros H. destruct (assign_Ok _ _ H) as [-> _]. exact H.
Qed.

(** The slice and array loop returns exactly when the elements resolve in
    order to storable values, and then it returns those, index by index. *)
Lemma resolveElems_Ok (resolveElem : govalue -> M govalue) (elemT : gotype)
      (context : nat -> error -> error) (items : list govalue) :
  forall i h out h',
    resolveElems resolveElem elemT context items i h = Ok (out, h') <->
    resolvedInOrder resolveElem elemT items out h h'.
Proof.
  induction items as [|x rest IH]; intros i h out h'.
  - cbn. split.
    + intros H; inversion H; constructor.
    + intros H; inversion H; reflexivity.
  - cbn [resolveElems]. unfold mbind, wrapErr, lift. split.
    + intros H.
      destruct (resolveElem x h) as [[r h1]| | |] eqn:Ex; try discriminate.
      cbn in H.
      destruct (reflect.assign elemT r) as [y| | |] eqn:Ea; try discriminate.
      cbn in H.
      destruct (resolveElems resolveElem elemT context rest (S i) h1)
        as [[others h2]| | |] eqn:Er; try discriminate.
      cbn in H. inversion H; subst.
      destruct (assign_Ok _ _ Ea) as [-> _].
      econstructor; [exact Ex | exact Ea |]. now apply (IH (S i)).
    + intros H. inversion H as [|x' y items' out' h0 h1 h2 Hx Ha Hrest]; subst.
      rewrite Hx. cbn. rewrite Ha. cbn.
      apply (IH (S i)) in Hrest. rewrite Hrest. reflexivity.
Qed.

Lemma resolvedInOrder_length (resolveElem : govalue -> M govalue)
      (elemT : gotype) (items out : list govalue) (h h' : heap) :
  resolvedInOrder resolveElem elemT items out h h' ->
  List.length out = List.length items.
Proof.
  induction 1; cbn; congruence.
Qed.

(** A slice against a slice type: the result is a new slice of the same
    length that holds the resolved elements in order, provided no element
    resolves to the nil interface. *)
Lemma resolveValue_slice_Ok (elem : gotype) (isnil : bool)
      (items : list govalue) (elemT : gotype) (h h' : heap) (out : govalue) :
  resolveValue (VSlice elem isnil items) (TSlice elemT) h = Ok (out, h') <->
  exists newSlice,
    out = VSlice elemT false newSlice /\
    List.length newSlice = List.length items /\
    resolvedInOrder (fun x => resolveValue x elemT) elemT items newSlice h h'.
Proof.
  cbn [resolveValue]. unfold mbind. split.
  - intros H.
    destruct (resolveElems (fun x => resolveValue x elemT) elemT ErrSliceElem
                           items 0 h) as [[newSlice h1]| | |] eqn:E;
      try discriminate.
    cbn in H. inversion H; subst. exists newSlice.
    apply resolveElems_Ok in E.
    split; [reflexivity|]. split; [|exact E].
    eapply resolvedInOrder_length. exact E.
  - intros (newSlice & -> & _ & Hres).
    apply (resolveElems_Ok _ _ ErrSliceElem _ 0) in Hres.
    rewrite Hres. reflexivity.
Qed.

(** The pointer case on an input that is not a promise. *)
Lemma resolveValue_pointer (elem : gotype) (a : addr) (pointee : govalue)
      (elemT : gotype) (h h1 : heap) (resolvedElem : govalue) :
  isPromise (VPtr elem (Some (a, pointee))) = false ->
  resolveValue pointee elemT h = Ok (resolvedElem, h1) ->
  resolveValue (VPtr elem (Some (a, pointee))) (TPtr elemT) h
  = bind (reflect.assign elemT resolvedElem)
         (fun x => Ok (VPtr elemT (Some (h1, x)), S h1)).
Proof.
  intros Hpromise Hpointee.
  assert (H : resolveValue (VPtr elem (Some (a, pointee))) (TPtr elemT) h
              = (resolvedElem <- resolveValue pointee elemT ;;
                 fun h0 => let (newPtr, h') := reflect.New elemT h0 in
                           lift (reflect.SetElem newPtr resolvedElem) h') h).
  { destruct elem; try reflexivity. discriminate. }
  rewrite H. unfold mbind. rewrite Hpointee. cbn.
  unfold lift, bind. destruct (reflect.assign elemT resolvedElem); reflexivity.
Qed.

(** C2 at the inputs where the code departs from it.  An element that
    resolves to the nil interface, which it does against the element type
    [interface{}], is handed to [reflect.ValueOf] and [Set] as it is: for a
    slice [Set] panics on the zero [Value], for a map [SetMapIndex] takes the
    zero [Value] as a request to delete, and the key is missing from the
    result. *)
Theorem nil_element_breaks_container (h : heap) :
  resolveValue (VSlice TInterface false [VInt 1; VNil]) (TSlice TInterface) h
  = Panic (PanicRuntime "reflect: call of reflect.Value.Set on zero Value") /\
  resolveValue (VMap TString TInterface false
                     [(VString "a", VInt 1); (VString "b", VNil)])
               (TMap TString TInterface) h
  = Ok (VMap TString TInterface false [(VString "a", VInt 1)], h).
Proof.
  split; reflexivity.
Qed.

(** C6 at the input where the code departs from it: a pointer to an
    [interface{}] that holds nil.  The pointee resolves to nil, and [Set] on
    the new pointer panics on the zero [Value]. *)
Theorem nil_pointee_breaks_pointer (a : addr) (h : heap) :
  resolveValue VNil TInterface h = Ok (VNil, h) /\
  resolveValue (VPtr TInterface (Some (a, VNil))) (TPtr TInterface) h
  = Panic (PanicRuntime "reflect: call of reflect.Value.Set on zero Value").
Proof.
  split; reflexivity.
Qed.

End ContainerFacts.

(** The two examples of the container round trip. *)
Example slice_of_promises :
  resolveValue (cv := reflect.integer_conversions)
               (VSlice (TPtr (TPromise TInt)) false
                       [readyPromise TInt 0 (VInt 1);
                        readyPromise TInt 1 (VInt 2);
                        readyPromise TInt 2 (VInt 3)])
               (TSlice TInt) 3
  = Ok (VSlice TInt false [VInt 1; VInt 2; VInt 3], 3).
Proof. reflexivity. Qed.

Example map_of_promises :
  resolveValue (cv := reflect.integer_conversions)
               (VMap TString (TPtr (TPromise TInt)) false
                     [(VString "a", readyPromise TInt 0 (VInt 1));
                      (VString "b", readyPromise TInt 1 (VInt 2))])
               (TMap TString TInt) 2
  = Ok (VMap TString TInt false
             [(VString "a", VInt 1); (VString "b", VInt 2)], 2).
Proof. reflexivity. Qed.

(** A pointer to a pointer to an int is rebuilt at fresh addresses. *)
Example pointer_round_trip :
  resolveValue (cv := reflect.integer_conversions)
               (VPtr (TPtr TInt) (Some (0, VPtr TInt (Some (1, VInt 5)))))
               (TPtr (TPtr TInt)) 2
  = Ok (VPtr (TPtr TInt) (Some (3, VPtr TInt (Some (2, VInt 5)))), 4).
Proof. reflexivity. Qed.

(** * Further properties of the code *)

(** ** The heap only grows *)

Section HeapFacts.

Context {cv : reflect.Conversions}.

Lemma lift_heap (A : Type) (m : exec A) (h h' : heap) (a : A) :
  lift m h = Ok (a, h') -> m = Ok a /\ h' = h.
Proof.
  unfold lift. destruct m; cbn; intros H; inversion H. now split.
Qed.

Lemma resolveBasic_heap (input : govalue) (expectedType : gotype)
      (h h' : heap) (r : govalue) :
  resolveBasic input expectedType h = Ok (r, h') -> h' = h.
Proof.
  unfold resolveBasic.
  destruct (reflect.TypeOf input) as [inputType|]; [|discriminate].
  destruct (reflect.AssignableTo inputType expectedType).
  - intros H; now inversion H.
  - destruct (reflect.ConvertibleTo inputType expectedType); [|discriminate].
    intros H. now apply lift_heap in H.
Qed.

Lemma resolveElems_grows (resolveElem : govalue -> M govalue)
      (elemT : gotype) (context : nat -> error -> error)
      (items : list govalue) :
  Forall (fun x => forall h r h', resolveElem x h = Ok (r, h') -> h <= h')
         items ->
  forall i h out h',
    resolveElems resolveElem elemT context items i h = Ok (out, h') ->
    h <= h'.
Proof.
  induction 1 as [|x rest Hx Hrest IH]; intros i h out h' H.
  - cbn in H. inversion H. lia.
  - apply resolveElems_Ok in H.
    inversion H as [|x' y items' out' h0 h1 h2 Hres Ha Htail]; subst.
    apply Hx in Hres.
    apply (resolveElems_Ok _ _ context _ (S i)) in Htail.
    apply IH in Htail. lia.
Qed.

Lemma resolveEntries_grows (resolveElem : govalue -> M govalue)
      (elemT : gotype) (resolveKey : govalue -> M govalue) (keyT : gotype)
      (entries : list (govalue * govalue)) :
  Forall (fun kv =>
            (forall h r h', resolveKey (fst kv) h = Ok (r, h') -> h <= h') /\
            (forall h r h', resolveElem (snd kv) h = Ok (r, h') -> h <= h'))
         entries ->
  forall newMap h out h',
    resolveEntries resolveElem elemT resolveKey keyT entries newMap h
    = Ok (out, h') ->
    h <= h'.
Proof.
  induction 1 as [|[k x] rest [Hk Hx] Hrest IH]; intros newMap h out h' H.
  - cbn in H. inversion H. lia.
  - cbn [resolveEntries] in H. unfold mbind, wrapErr in H. cbn in Hk, Hx.
    destruct (resolveKey k h) as [[rk h1]| | |] eqn:Ek; try discriminate.
    cbn in H.
    destruct (resolveElem x h1) as [[rx h2]| | |] eqn:Ex; try discriminate.
    cbn in H.
    destruct (lift (reflect.SetMapIndex keyT elemT newMap rk rx) h2)
      as [[m h3]| | |] eqn:Es; try discriminate.
    cbn in H. apply lift_heap in Es. destruct Es as [_ ->].
    apply Hk in Ek. apply Hx in Ex. apply IH in H. lia.
Qed.

Ltac flat_case H :=
  cbn [resolveValue] in H; unfold throw, ret, raise, block in H;
  first [ discriminate H
        | inversion H; subst; lia
        | apply resolveBasic_heap in H; lia ].

Lemma resolveValue_grows_nested (input : govalue) :
  (forall expectedType h r h',
      resolveValue input expectedType h = Ok (r, h') -> h <= h') /\
  match input with
  | VPromise _ p =>
      forall expectedType h r h',
        resolveValue (value p) expectedType h = Ok (r, h') -> h <= h'
  | _ => True
  end.
Proof.
  induction input using govalue_nested_ind.
  - split; [|exact I]. intros t h r h' Hres. flat_case Hres.
  - split; [|exact I]. intros t h r h' Hres. destruct t; flat_case Hres.
  - split; [|exact I]. intros t h r h' Hres. destruct t; flat_case Hres.
  - split; [|exact I]. intros t h r h' Hres. destruct t; flat_case Hres.
  - split; [|exact I]. intros t h r h' Hres. destruct t; flat_case Hres.
  - split; [|exact I]. intros t h r h' Hres.
    destruct elem; destruct t; flat_case Hres.
  - split; [|exact I]. intros t h r h' Hres.
    destruct IHinput as [IH IHp].
    assert (Hplain : forall elemT,
               (resolvedElem <- resolveValue input elemT ;;
                fun h0 => let (newPtr, h1) := reflect.New elemT h0 in
                          lift (reflect.SetElem newPtr resolvedElem) h1) h
               = Ok (r, h') -> h <= h').
    { intros elemT Hp. unfold mbind in Hp.
      destruct (resolveValue input elemT h) as [[re h1]| | |] eqn:E;
        try discriminate.
      cbn in Hp. apply lift_heap in Hp. destruct Hp as [_ ->].
      apply IH in E. lia. }
    destruct elem;
      try (destruct t; first [ now apply (Hplain t) | flat_case Hres ]).
    destruct input; try flat_case Hres.
    cbn [resolveValue] in Hres. destruct (ready p); [|discriminate].
    now apply IHp in Hres.
  - split; [|exact I]. intros t h r h' Hres.
    destruct t as [| | | | |elemT|elemT|len elemT|keyT elemT|T']; try flat_case Hres.
    cbn [resolveValue] in Hres. unfold mbind in Hres.
    destruct (resolveElems (fun x => resolveValue x elemT) elemT ErrSliceElem items 0 h)
      as [[out h1]| | |] eqn:E; try discriminate.
    cbn in Hres. inversion Hres; subst.
    eapply resolveElems_grows; [|exact E].
    eapply Forall_impl; [|eassumption].
    intros x [Hx _] h0 r0 h0'. apply Hx.
  - split; [|exact I]. intros t h r h' Hres.
    destruct t as [| | | | |elemT|elemT|len elemT|keyT elemT|T']; try flat_case Hres.
    cbn [resolveValue] in Hres.
    destruct (negb (Nat.eqb (List.length items) len)); [discriminate|].
    cbn in Hres. unfold mbind in Hres.
    destruct (resolveElems (fun x => resolveValue x elemT) elemT ErrArrayElem items 0
                           (S h)) as [[out h1]| | |] eqn:E; try discriminate.
    cbn in Hres. inversion Hres; subst.
    enough (S h <= h') by lia.
    eapply resolveElems_grows; [|exact E].
    eapply Forall_impl; [|eassumption].
    intros x [Hx _] h0 r0 h0'. apply Hx.
  - split; [|exact I]. intros t h r h' Hres.
    destruct t as [| | | | |elemT|elemT|len elemT|keyT elemT|T']; try flat_case Hres.
    cbn [resolveValue] in Hres. unfold mbind in Hres.
    destruct (resolveEntries (fun x => resolveValue x elemT) elemT
                             (fun x => resolveValue x keyT) keyT entries [] h)
      as [[out h1]| | |] eqn:E; try discriminate.
    cbn in Hres. inversion Hres; subst.
    eapply resolveEntries_grows; [|exact E].
    eapply Forall_impl; [|eassumption].
    intros [k x] [[Hk _] [Hx _]]. cbn in *.
    split; intros h0 r0 h0'; [apply Hk | apply Hx].
  - destruct IHinput as [IH _]. split; [|exact IH].
    intros t h r h' Hres. destruct t; flat_case Hres.
Qed.

(** [resolveValue] only ever allocates. *)
Lemma resolveValue_grows (input : govalue) (expectedType : gotype)
      (h h' : heap) (r : govalue) :
  resolveValue input expectedType h = Ok (r, h') -> h <= h'.
Proof.
  apply (proj1 (resolveValue_grows_nested input)).
Qed.

End HeapFacts.

(** ** Pointers *)

Section PointerFacts.

Context {cv : reflect.Conversions}.

Lemma resolveValue_plain_pointer (elem : gotype)
      (target : option (addr * govalue)) (elemT : gotype) (h : heap) :
  isPromise (VPtr elem target) = false ->
  resolveValue (VPtr elem target) (TPtr elemT) h
  = match target with
    | None => Ok (reflect.Zero (TPtr elemT), h)
    | Some (_, pointee) =>
        (resolvedElem <- resolveValue pointee elemT ;;
         fun h0 => let (newPtr, h1) := reflect.New elemT h0 in
                   lift (reflect.SetElem newPtr resolvedElem) h1) h
    end.
Proof.
  intros Hpromise.
  destruct elem; try discriminate; destruct target as [[a v]|]; reflexivity.
Qed.

(** X1.  The pointer case of [resolveValue], for an input that is neither
    nil nor a promise.  An input that is not a pointer fails with the error
    naming both types.  A nil pointer gives the nil pointer of the expected
    type without allocating.  For any other pointer the pointee is resolved
    against the pointee type: its error comes back as it is, without added
    context, and a result that can be stored is placed behind a pointer of
    the expected type at the first address free after the pointee was
    resolved, which is not the address of the input pointer. *)
Theorem pointer_is_rebuilt (input : govalue) (elemT : gotype) (h : heap)
        (Hnil : input <> VNil) (Hpromise : isPromise input = false) :
  (reflect.kindOf input <> KPtr ->
   resolveValue input (TPtr elemT) h
   = Err (ErrExpectedPointer (TPtr elemT) (reflect.TypeOf input))) /\
  (forall elem,
      input = VPtr elem None ->
      resolveValue input (TPtr elemT) h = Ok (VPtr elemT None, h)) /\
  (forall elem a pointee,
      input = VPtr elem (Some (a, pointee)) ->
      (forall e,
          resolveValue pointee elemT h = Err e ->
          resolveValue input (TPtr elemT) h = Err e) /\
      (forall r h1 t,
          resolveValue pointee elemT h = Ok (r, h1) ->
          reflect.TypeOf r = Some t ->
          reflect.AssignableTo t elemT = true ->
          resolveValue input (TPtr elemT) h
          = Ok (VPtr elemT (Some (h1, r)), S h1) /\
          h <= h1 /\ (a < h -> h1 <> a))).
Proof.
  split; [|split].
  - intros Hkind.
    destruct input as [| | | | |elem target| | | |]; try reflexivity.
    + congruence.
    + exfalso. apply Hkind. reflexivity.
  - intros elem ->. rewrite resolveValue_plain_pointer by assumption.
    destruct elemT; reflexivity.
  - intros elem a pointee ->.
    rewrite resolveValue_plain_pointer by assumption. unfold mbind. split.
    + intros e He. now rewrite He.
    + intros r h1 t Hr Ht Ha. rewrite Hr. cbn.
      unfold lift, reflect.assign. rewrite Ht, Ha. cbn.
      apply resolveValue_grows in Hr.
      split; [reflexivity|]. split; [assumption|lia].
Qed.

End PointerFacts.

Lemma pointer_is_rebuilt_witness :
  resolveValue (cv := reflect.integer_conversions)
               (VPtr TInterface (Some (3, readyPromise TInt 4 (VInt 7))))
               (TPtr TInt) 5
  = Ok (VPtr TInt (Some (5, VInt 7)), 6).
Proof.
  refine (proj1 (proj2 (proj2 (proj2 (@pointer_is_rebuilt
            reflect.integer_conversions
            (VPtr TInterface (Some (3, readyPromise TInt 4 (VInt 7)))) TInt 5 _ _))
            TInterface 3 (readyPromise TInt 4 (VInt 7)) eq_refl)
            (VInt 7) 5 TInt _ _ _));
    first [discriminate | reflexivity].
Defined.

(** ** Slices and arrays *)

Section SequenceFacts.

Context {cv : reflect.Conversions}.

Lemma resolvedInOrder_nth (resolveElem : govalue -> M govalue)
      (elemT : gotype) (items out : list govalue) (h h' : heap) :
  resolvedInOrder resolveElem elemT items out h h' ->
  forall i x,
    nth_error items i = Some x ->
    exists y h1 h2,
      nth_error out i = Some y /\ y <> VNil /\
      resolveElem x h1 = Ok (y, h2).
Proof.
  induction 1 as [|x0 y0 items out h h1 h2 Hx Ha Hrest IH]; intros i x Hnth.
  - destruct i; discriminate.
  - destruct i as [|i]; cbn in Hnth.
    + inversion Hnth; subst. exists y0, h, h1. cbn.
      repeat split; try assumption. now apply assign_Ok in Ha.
    + apply IH in Hnth. destruct Hnth as (y & ha & hb & Hy & Hn & Hr).
      exists y, ha, hb. now repeat split.
Qed.

(** X2.  A slice against a slice type.  [resolveValue] returns a value
    exactly when the elements, taken in order with the heap passed along,
    each resolve against the element type to a value that can be stored;
    the value is then a slice of the expected type, never the nil slice,
    of the same length, holding at every index what the element at that
    index resolved to.  The typed nil slice gives the empty slice. *)
Theorem slice_is_rebuilt (elem : gotype) (isnil : bool)
        (items : list govalue) (elemT : gotype) (h : heap) :
  (forall out h',
      resolveValue (VSlice elem isnil items) (TSlice elemT) h = Ok (out, h') <->
      exists newSlice,
        out = VSlice elemT false newSlice /\
        resolvedInOrder (fun x => resolveValue x elemT) elemT
                        items newSlice h h') /\
  (forall newSlice h',
      resolveValue (VSlice elem isnil items) (TSlice elemT) h
      = Ok (VSlice elemT false newSlice, h') ->
      List.length newSlice = List.length items /\
      forall i x,
        nth_error items i = Some x ->
        exists y h1 h2,
          nth_error newSlice i = Some y /\ y <> VNil /\
          resolveValue x elemT h1 = Ok (y, h2)) /\
  (items = [] ->
   resolveValue (VSlice elem isnil items) (TSlice elemT) h
   = Ok (VSlice elemT false [], h)).
Proof.
  split; [|split].
  - intros out h'. rewrite resolveValue_slice_Ok. split.
    + intros (newSlice & Hout & _ & Hres). eauto.
    + intros (newSlice & Hout & Hres). exists newSlice.
      repeat split; try assumption.
      eapply resolvedInOrder_length. exact Hres.
  - intros newSlice h' H. apply resolveValue_slice_Ok in H.
    destruct H as (newSlice' & Heq & Hlen & Hres). inversion Heq; subst.
    split; [assumption|]. exact (resolvedInOrder_nth Hres).
  - intros ->. reflexivity.
Qed.

Lemma resolveElems_first_error (resolveElem : govalue -> M govalue)
      (elemT : gotype) (context : nat -> error -> error)
      (before : list govalue) :
  forall (x : govalue) (after out : list govalue) (i : nat) (h h1 : heap)
         (e : error),
    resolvedInOrder resolveElem elemT before out h h1 ->
    resolveElem x h1 = Err e ->
    resolveElems resolveElem elemT context (before ++ x :: after) i h
    = Err (context (i + List.length before) e).
Proof.
  induction before as [|b before IH]; intros x after out i h h1 e Hres He.
  - inversion Hres; subst. cbn. unfold mbind, wrapErr. rewrite He. cbn.
    now rewrite Nat.add_0_r.
  - inversion Hres as [|b' y items' out' h0 ha hb Hb Ha Htail]; subst.
    cbn [app resolveElems]. unfold mbind at 1. unfold wrapErr at 1.
    rewrite Hb. cbn. unfold mbind at 1. unfold lift at 1. rewrite Ha. cbn.
    unfold mbind at 1.
    rewrite (IH x after _ (S i) ha h1 e Htail He). cbn.
    now rewrite Nat.add_succ_r.
Qed.

(** X3.  When the elements before index [i] resolve and the element at
    index [i] fails with an error, the slice and the array as a whole fail
    with that error wrapped with the index [i]; no element after it is
    resolved.  The array loop starts after the allocation of the new
    array. *)
Theorem element_error_carries_index (elem elemT : gotype) (isnil : bool)
        (before after out : list govalue) (x : govalue) (e : error) :
  (forall h h1,
      resolvedInOrder (fun v => resolveValue v elemT) elemT before out h h1 ->
      resolveValue x elemT h1 = Err e ->
      resolveValue (VSlice elem isnil (before ++ x :: after)) (TSlice elemT) h
      = Err (ErrSliceElem (List.length before) e)) /\
  (forall h h1,
      resolvedInOrder (fun v => resolveValue v elemT) elemT before out
                      (S h) h1 ->
      resolveValue x elemT h1 = Err e ->
      resolveValue (VArray elem (before ++ x :: after))
                   (TArray (List.length (before ++ x :: after)) elemT) h
      = Err (ErrArrayElem (List.length before) e)).
Proof.
  split; intros h h1 Hres He.
  - cbn [resolveValue]. unfold mbind.
    now rewrite (@resolveElems_first_error _ elemT ErrSliceElem before x after
                   out 0 h h1 e Hres He).
  - cbn [resolveValue]. rewrite Nat.eqb_refl. cbn. unfold mbind.
    now rewrite (@resolveElems_first_error _ elemT ErrArrayElem before x after
                   out 0 (S h) h1 e Hres He).
Qed.

End SequenceFacts.

Lemma element_error_carries_index_witness :
  resolveValue (cv := reflect.integer_conversions)
               (VSlice TInterface false
                       ([readyPromise TInt 0 (VInt 1)]
                          ++ VString "two" :: [VInt 3]))
               (TSlice TInt) 1
  = Err (ErrSliceElem 1 (ErrCannotConvert TString TInt)).
Proof.
  refine (proj1 (@element_error_carries_index reflect.integer_conversions
                   TInterface TInt false [readyPromise TInt 0 (VInt 1)]
                   [VInt 3] [VInt 1] (VString "two")
                   (ErrCannotConvert TString TInt)) 1 1 _ _);
    [|reflexivity].
  econstructor; [reflexivity | reflexivity | constructor].
Defined.

Section ArrayAndShapeFacts.

Context {cv : reflect.Conversions}.

(** X4.  An array of the expected length against an array type.  A new
    array is allocated first; then, as for a slice, [resolveValue] returns a
    value exactly when the elements resolve in order to values that can be
    stored, and the value is an array of the resolved elements whose type
    is the expected array type. *)
Theorem array_is_rebuilt (elem : gotype) (items : list govalue)
        (elemT : gotype) (h : heap) :
  (forall out h',
      resolveValue (VArray elem items) (TArray (List.length items) elemT) h
      = Ok (out, h') <->
      exists newArray,
        out = VArray elemT newArray /\
        resolvedInOrder (fun x => resolveValue x elemT) elemT
                        items newArray (S h) h') /\
  (forall out h',
      resolveValue (VArray elem items) (TArray (List.length items) elemT) h
      = Ok (out, h') ->
      reflect.TypeOf out = Some (TArray (List.length items) elemT)).
Proof.
  assert (Hiff : forall out h',
      resolveValue (VArray elem items) (TArray (List.length items) elemT) h
      = Ok (out, h') <->
      exists newArray,
        out = VArray elemT newArray /\
        resolvedInOrder (fun x => resolveValue x elemT) elemT
                        items newArray (S h) h').
  { intros out h'. cbn [resolveValue]. rewrite Nat.eqb_refl. cbn.
    unfold mbind. split.
    - intros H.
      destruct (resolveElems (fun x => resolveValue x elemT) elemT ErrArrayElem
                             items 0 (S h)) as [[newArray h1]| | |] eqn:E;
        try discriminate.
      cbn in H. inversion H; subst. exists newArray.
      split; [reflexivity|]. now apply resolveElems_Ok in E.
    - intros (newArray & -> & Hres).
      apply (resolveElems_Ok _ _ ErrArrayElem _ 0) in Hres.
      rewrite Hres. reflexivity. }
  split; [exact Hiff|].
  intros out h' H. apply Hiff in H. destruct H as (newArray & -> & Hres).
  cbn. now rewrite (resolvedInOrder_length Hres).
Qed.

Lemma resolveValue_not_slice (input : govalue) (elemT : gotype) (h : heap) :
  input <> VNil -> isPromise input = false ->
  reflect.kindOf input <> KSlice ->
  resolveValue input (TSlice elemT) h
  = Err (ErrExpectedSlice (reflect.kindOf input)).
Proof.
  intros Hnil Hpromise Hkind.
  destruct input as [| | | | |elem target| | | |]; try reflexivity.
  - congruence.
  - destruct elem; try reflexivity. discriminate.
  - exfalso. apply Hkind. reflexivity.
Qed.

Lemma resolveValue_not_map (input : govalue) (keyT elemT : gotype)
      (h : heap) :
  input <> VNil -> isPromise input = false ->
  reflect.kindOf input <> KMap ->
  resolveValue input (TMap keyT elemT) h
  = Err (ErrExpectedMap (reflect.kindOf input)).
Proof.
  intros Hnil Hpromise Hkind.
  destruct input as [| | | | |elem target| | | |]; try reflexivity.
  - congruence.
  - destruct elem; try reflexivity. discriminate.
  - exfalso. apply Hkind. reflexivity.
Qed.

(** X5.  The container a slice or map type asks for is not negotiable: an
    input that is neither nil nor a promise and whose kind is not the
    expected one fails with the error naming its kind, before anything in
    it is resolved.  In particular an array is refused where a slice is
    expected, whatever it holds. *)
Theorem container_kind_must_match (input : govalue) (h : heap)
        (Hnil : input <> VNil) (Hpromise : isPromise input = false) :
  (forall elemT,
      reflect.kindOf input <> KSlice ->
      resolveValue input (TSlice elemT) h
      = Err (ErrExpectedSlice (reflect.kindOf input))) /\
  (forall keyT elemT,
      reflect.kindOf input <> KMap ->
      resolveValue input (TMap keyT elemT) h
      = Err (ErrExpectedMap (reflect.kindOf input))) /\
  (forall elem items elemT,
      input = VArray elem items ->
      resolveValue input (TSlice elemT) h = Err (ErrExpectedSlice KArray)).
Proof.
  split; [|split].
  - intros elemT. now apply resolveValue_not_slice.
  - intros keyT elemT. now apply resolveValue_not_map.
  - intros elem items elemT ->. reflexivity.
Qed.

End ArrayAndShapeFacts.

Lemma container_kind_must_match_witness :
  resolveValue (cv := reflect.integer_conversions)
               (VArray TInt [VInt 1; VInt 2]) (TSlice TInt) 0
  = Err (ErrExpectedSlice KArray).
Proof.
  refine (proj2 (proj2 (@container_kind_must_match
            reflect.integer_conversions (VArray TInt [VInt 1; VInt 2]) 0 _ _))
            TInt [VInt 1; VInt 2] TInt eq_refl);
    [discriminate | reflexivity].
Defined.

(** ** Maps *)

Section MapFacts.

Context {cv : reflect.Conversions}.

Lemma mapassign_fresh (m : list (govalue * govalue)) (k v : govalue) :
  Forall (fun kv => reflect.equal (fst kv) k = false) m ->
  reflect.mapassign m k v = m ++ [(k, v)].
Proof.
  induction 1 as [|[k' v'] m Hk Hm IH]; [reflexivity|].
  cbn in *. rewrite Hk. now rewrite IH.
Qed.

Lemma SetMapIndex_fresh (keyT elemT : gotype) (m : list (govalue * govalue))
      (k v : govalue) (tk tv : gotype) :
  reflect.TypeOf k = Some tk -> reflect.AssignableTo tk keyT = true ->
  reflect.hashable k = true ->
  reflect.TypeOf v = Some tv -> reflect.AssignableTo tv elemT = true ->
  Forall (fun kv => reflect.equal (fst kv) k = false) m ->
  reflect.SetMapIndex keyT elemT m k v = Ok (m ++ [(k, v)]).
Proof.
  intros Htk Hak Hh Htv Hav Hm. unfold reflect.SetMapIndex.
  rewrite Htk, Hak, Hh, Htv, Hav. cbn. now rewrite mapassign_fresh.
Qed.

Lemma resolveEntries_distinct (resolveElem : govalue -> M govalue)
      (elemT : gotype) (resolveKey : govalue -> M govalue) (keyT : gotype)
      (entries out : list (govalue * govalue)) (h h' : heap) :
  entriesResolved resolveKey keyT resolveElem elemT entries out h h' ->
  forall newMap,
    distinctKeys (newMap ++ out) ->
    resolveEntries resolveElem elemT resolveKey keyT entries newMap h
    = Ok (newMap ++ out, h').
Proof.
  induction 1 as [h|key val k v rest out h h1 h2 h3 tk tv
                    Hk Hv Htk Hak Hh Htv Hav Hrest IH];
    intros newMap Hd.
  - cbn. now rewrite app_nil_r.
  - cbn [resolveEntries]. unfold mbind at 1. unfold wrapErr at 1.
    rewrite Hk. cbn. unfold mbind at 1. unfold wrapErr at 1.
    rewrite Hv. cbn. unfold mbind at 1. unfold lift at 1.
    assert (Hfresh : Forall (fun kv => reflect.equal (fst kv) k = false)
                            newMap).
    { unfold distinctKeys in Hd. clear - Hd.
      induction newMap as [|a newMap IHm]; [constructor|].
      cbn in Hd. inversion Hd as [|a' l' Ha Hl]; subst.
      constructor.
      - rewrite Forall_forall in Ha. apply (Ha (k, v)).
        apply in_or_app. right. now left.
      - now apply IHm. }
    rewrite (@SetMapIndex_fresh keyT elemT newMap k v tk tv
                                Htk Hak Hh Htv Hav Hfresh). cbn.
    rewrite (IH (newMap ++ [(k, v)])).
    + now rewrite <- app_assoc.
    + now rewrite <- app_assoc.
Qed.

(** X6.  A map against a map type.  When, entry by entry in the order of
    [MapKeys], the key and then the value resolve to a key and a value that
    [SetMapIndex] stores, and no two resolved keys are equal, the result is
    a new map of the expected type, never the nil map, with one entry per
    input entry: the resolved key bound to the resolved value. *)
Theorem map_is_rebuilt (key elem keyT elemT : gotype) (isnil : bool)
        (entries out : list (govalue * govalue)) (h h' : heap)
        (Hres : entriesResolved (fun x => resolveValue x keyT) keyT
                                (fun x => resolveValue x elemT) elemT
                                entries out h h')
        (Hdistinct : distinctKeys out) :
  resolveValue (VMap key elem isnil entries) (TMap keyT elemT) h
  = Ok (VMap keyT elemT false out, h') /\
  List.length out = List.length entries.
Proof.
  split.
  - cbn [resolveValue]. unfold mbind.
    now rewrite (@resolveEntries_distinct _ _ _ _ _ _ _ _ Hres [] Hdistinct).
  - clear Hdistinct. induction Hres; cbn; congruence.
Qed.

End MapFacts.

Lemma map_is_rebuilt_witness :
  resolveValue (cv := reflect.integer_conversions)
               (VMap TString (TPtr (TPromise TInt)) false
                     [(VString "a", readyPromise TInt 0 (VInt 1));
                      (VString "b", readyPromise TInt 1 (VInt 2))])
               (TMap TString TInt) 2
  = Ok (VMap TString TInt false
             [(VString "a", VInt 1); (VString "b", VInt 2)], 2).
Proof.
  refine (proj1 (@map_is_rebuilt reflect.integer_conversions
                   TString (TPtr (TPromise TInt)) TString TInt false
                   [(VString "a", readyPromise TInt 0 (VInt 1));
                    (VString "b", readyPromise TInt 1 (VInt 2))]
                   [(VString "a", VInt 1); (VString "b", VInt 2)] 2 2 _ _)).
  - eapply entries_cons; try reflexivity.
    eapply entries_cons; try reflexivity.
    constructor.
  - unfold distinctKeys. repeat constructor.
Defined.

(** ** The open type *)

Section OpenTypeFacts.

Context {cv : reflect.Conversions}.

Lemma resolveValue_interface (input : govalue) (h : heap) :
  isPromise input = false ->
  resolveValue input TInterface h = Ok (input, h).
Proof.
  intros Hpromise.
  destruct input as [| | | | |elem target| | | |]; try reflexivity.
  destruct elem; try reflexivity. discriminate.
Qed.

Lemma assign_interface (v : govalue) :
  v <> VNil -> reflect.assign TInterface v = Ok v.
Proof.
  intros Hnil. unfold reflect.assign, reflect.AssignableTo.
  destruct v; try congruence; reflexivity.
Qed.

(** X7.  Against [interface{}] nothing is descended into.  A value that is
    neither nil nor a promise comes back as it is, with every promise it
    contains still in place, and without allocation; so a slice whose
    elements are plain values and promises, of any depth of nesting of
    promise in promise, resolved against [[]interface{}], gives the slice of
    the plain values and the innermost payloads, one per slot in order,
    provided none of them is nil. *)
Theorem open_type_stops_descent (elem : gotype) (isnil : bool)
        (items payloads : list govalue) (h : heap)
        (Hitems : Forall2 (fun item v =>
                             v <> VNil /\ isPromise v = false /\
                             exists layers, item = nest layers v)
                          items payloads) :
  Forall (fun v => resolveValue v TInterface h = Ok (v, h)) payloads /\
  resolveValue (VSlice elem isnil items) (TSlice TInterface) h
  = Ok (VSlice TInterface false payloads, h).
Proof.
  split.
  - induction Hitems as [|item v items payloads (Hnil & Hp & _) _ IH];
      constructor; [now apply resolveValue_interface | exact IH].
  - apply resolveValue_slice_Ok. exists payloads.
    split; [reflexivity|]. split.
    + symmetry. eapply Forall2_length. exact Hitems.
    + induction Hitems
        as [|item v items payloads (Hnil & Hp & layers & ->) _ IH].
      * constructor.
      * econstructor; [|now apply assign_interface|exact IH].
        rewrite resolveValue_nest. now apply resolveValue_interface.
Qed.

End OpenTypeFacts.

Lemma open_type_stops_descent_witness :
  resolveValue (cv := reflect.integer_conversions)
               (VSlice TInterface false
                       [VInt 1;
                        nest [(TPtr (TPromise TString), 0); (TString, 1)]
                             (VString "two");
                        VSlice (TPtr (TPromise TInt)) false
                               [readyPromise TInt 2 (VInt 3)]])
               (TSlice TInterface) 3
  = Ok (VSlice TInterface false
               [VInt 1; VString "two";
                VSlice (TPtr (TPromise TInt)) false
                       [readyPromise TInt 2 (VInt 3)]], 3).
Proof.
  refine (proj2 (@open_type_stops_descent reflect.integer_conversions
                   TInterface false _ _ 3 _)).
  repeat constructor; try discriminate.
  - now exists [].
  - now exists [(TPtr (TPromise TString), 0); (TString, 1)].
  - now exists [].
Defined.

(** ** Async against Sync *)

Section AsyncSyncFacts.

Context {cv : reflect.Conversions}.

Lemma Async_Ok_inv (T : gotype) (f : callee) (args : list govalue)
      (h h' : heap) (s : spawned) :
  Async T f args h = Ok (s, h') ->
  exists ft recursive args',
    f = Func ft /\
    detectFlag (List.length (params ft)) args = (recursive, args') /\
    List.length args' = List.length (params ft) /\
    s = mkSpawned h (newPending (reflect.Zero T))
                  (mkClosure f recursive args') /\
    h' = S h.
Proof.
  unfold Async. destruct f as [ft|v]; [|discriminate].
  destruct (detectFlag (List.length (params ft)) args)
    as [recursive args'] eqn:Hflag.
  destruct (Nat.eqb_spec (List.length args') (List.length (params ft)))
    as [Hlen|]; [|discriminate].
  cbn. intros H. inversion H; subst.
  exists ft, recursive, args'. repeat split; assumption.
Qed.

(** X8.  [Async] followed by its goroutine is [Sync] behind a promise.  When
    [Async] returns, the goroutine run from a given heap leaves the promise
    ready with exactly the value [Sync] returns for the same [f] and
    arguments from that heap, and prints nothing; where [Sync] panics the
    goroutine prints that panic and the promise stays pending; where [Sync]
    blocks the promise stays pending and nothing is printed. *)
Theorem async_get_is_sync (T : gotype) (f : callee) (args : list govalue)
        (hc hc' : heap) (s : spawned) (out : list panic) (hw : heap)
        (Hcall : Async T f args hc = Ok (s, hc')) :
  match Sync T f args hw with
  | Ok (v, h') =>
      runGoroutine T (goroutine s) (mkWorld (promise s) out hw)
      = mkWorld (mkPromise v true true) out h' /\
      Get (w_promise (runGoroutine T (goroutine s)
                                   (mkWorld (promise s) out hw))) = Ok v
  | Panic r =>
      runGoroutine T (goroutine s) (mkWorld (promise s) out hw)
      = mkWorld (promise s) (out ++ [r]) hw /\
      Get (w_promise (runGoroutine T (goroutine s)
                                   (mkWorld (promise s) out hw))) = Blocked
  | Blocked | Err _ =>
      runGoroutine T (goroutine s) (mkWorld (promise s) out hw)
      = mkWorld (promise s) out hw /\
      Get (w_promise (runGoroutine T (goroutine s)
                                   (mkWorld (promise s) out hw))) = Blocked
  end.
Proof.
  apply Async_Ok_inv in Hcall.
  destruct Hcall as (ft & recursive & args' & -> & Hflag & Hlen & -> & _).
  unfold Sync. rewrite Hflag, Hlen, Nat.eqb_refl. cbn [negb].
  unfold runGoroutine.
  cbn [goroutine promise captured_f captured_recursive captured_args
       w_heap w_promise w_stdout].
  destruct (executeFunction T (Func ft) recursive args' hw)
    as [[v h']| | |]; split; reflexivity.
Qed.

End AsyncSyncFacts.

Lemma async_get_is_sync_witness :
  Get (w_promise
         (runGoroutine (cv := reflect.integer_conversions) TInt
                       (mkClosure (Func Add) false
                                  [readyPromise TInt 0 (VInt 9); VInt 16])
                       (mkWorld (newPending (VInt 0)) [] 3)))
  = Ok (VInt 25).
Proof.
  exact (proj2 (@async_get_is_sync reflect.integer_conversions TInt (Func Add)
                  [readyPromise TInt 0 (VInt 9); VInt 16] 2 3
                  (mkSpawned 2 (newPending (VInt 0))
                             (mkClosure (Func Add) false
                                        [readyPromise TInt 0 (VInt 9); VInt 16]))
                  [] 3 eq_refl)).
Defined.

(** ** What the worker receives *)

Section DeliveryFacts.

Context {cv : reflect.Conversions}.

Lemma skipn_cons_nth (A : Type) (l : list A) :
  forall i x l',
    skipn i l = x :: l' -> nth_error l i = Some x /\ skipn (S i) l = l'.
Proof.
  induction l as [|a l IH]; intros i x l' H.
  - destruct i; discriminate.
  - destruct i as [|i].
    + cbn in H. inversion H; subst. now split.
    + cbn [skipn] in H. apply IH in H. exact H.
Qed.

Lemma typed_not_nil (v : govalue) (t : gotype) : typed v t -> v <> VNil.
Proof.
  intros (tv & Htv & _) ->. discriminate.
Qed.

Lemma resolveValue_basic (v : govalue) (t : gotype) (h : heap) :
  isPromise v = false -> v <> VNil -> basic t = true ->
  resolveValue v t h = resolveBasic v t h.
Proof.
  intros Hpromise Hnil Hbasic.
  destruct t; try discriminate;
    destruct v as [| | | | |elem target| | | |]; try reflexivity;
      try congruence;
      destruct elem; try reflexivity; discriminate.
Qed.

Lemma resolveArgs_delivers (ft : gofunc) (recursive : bool) (h : heap)
      (args payloads : list govalue) :
  Forall2 (fun arg payload =>
             forall t, In t (params ft) -> typed payload t ->
                       (if recursive then resolveValue arg t
                        else shallowResolve arg t) h = Ok (payload, h))
          args payloads ->
  forall i,
    Forall2 typed payloads (skipn i (params ft)) ->
    resolveArgs ft recursive args i h = Ok (payloads, h).
Proof.
  induction 1 as [|arg payload args payloads Harg Hrest IH]; intros i Htyped.
  - reflexivity.
  - inversion Htyped as [|p t ps ts Hp Hts Hps Heq]; subst.
    symmetry in Heq. apply skipn_cons_nth in Heq. destruct Heq as [Hnth Hskip].
    cbn [resolveArgs]. rewrite Hnth. unfold mbind at 1.
    rewrite (Harg t (nth_error_In _ _ Hnth) Hp). cbn.
    destruct Hp as (tv & Htv & Hav). rewrite Htv, Hav.
    unfold mbind. cbn. rewrite IH by (rewrite Hskip; exact Hts).
    reflexivity.
Qed.

Lemma executeFunction_delivers (T : gotype) (ft : gofunc) (recursive : bool)
      (h : heap) (args payloads : list govalue) :
  List.length (results ft) = 1 ->
  Forall2 typed payloads (params ft) ->
  Forall2 (fun arg payload =>
             forall t, In t (params ft) -> typed payload t ->
                       (if recursive then resolveValue arg t
                        else shallowResolve arg t) h = Ok (payload, h))
          args payloads ->
  executeFunction T (Func ft) recursive args h = invoke T ft payloads h.
Proof.
  intros Hout Htyped Hargs. unfold executeFunction.
  rewrite Hout. cbn [Nat.eqb negb].
  assert (Hlen : List.length (params ft) = List.length args).
  { apply Forall2_length in Htyped. apply Forall2_length in Hargs. lia. }
  rewrite Hlen, Nat.eqb_refl. cbn [negb].
  unfold mbind at 1.
  rewrite (resolveArgs_delivers ft recursive Hargs 0 Htyped).
  reflexivity.
Qed.

(** X9.  Promises stand in for values.  Let the worker declare one result
    and let [payloads] be values assignable to its parameters, one each.
    If every argument is the payload itself or a ready promise of it,
    [Sync] without a flag, and with a trailing [false], is the call of the
    worker on the payloads followed by the check of its result, with no
    allocation in between.  If the parameters are of basic types and every
    argument is the payload under any number of ready promises, [Sync] with
    a trailing [true] is that same call. *)
Theorem worker_receives_payloads (T : gotype) (ft : gofunc)
        (args payloads : list govalue) (h : heap)
        (Hout : List.length (results ft) = 1)
        (Htyped : Forall2 typed payloads (params ft)) :
  (Forall2 shallowArg args payloads ->
   Sync T (Func ft) args h = invoke T ft payloads h /\
   Sync T (Func ft) (args ++ [VBool false]) h = invoke T ft payloads h) /\
  (Forall (fun t => basic t = true) (params ft) ->
   Forall2 deepArg args payloads ->
   Sync T (Func ft) (args ++ [VBool true]) h = invoke T ft payloads h).
Proof.
  split.
  - intros Hargs.
    assert (Hlen : List.length args = List.length (params ft)).
    { apply Forall2_length in Htyped. apply Forall2_length in Hargs. lia. }
    assert (Hexec : executeFunction T (Func ft) false args h
                    = invoke T ft payloads h).
    { apply executeFunction_delivers; try assumption.
      eapply Forall2_impl; [|exact Hargs].
      intros arg payload Harg t _ Ht. cbn beta iota.
      apply typed_not_nil in Ht.
      destruct Harg as [[-> Hp]|(P & a & ->)].
      - destruct payload as [| | | | |elem target| | | |];
          try reflexivity; try congruence.
        destruct elem; try reflexivity. discriminate.
      - reflexivity. }
    unfold Sync.
    rewrite (@detectFlag_with_flag _ args false Hlen),
      (@detectFlag_exact _ args Hlen).
    rewrite Hlen, Nat.eqb_refl. cbn [negb]. now split.
  - intros Hbasic Hargs.
    assert (Hlen : List.length args = List.length (params ft)).
    { apply Forall2_length in Htyped. apply Forall2_length in Hargs. lia. }
    unfold Sync. rewrite (@detectFlag_with_flag _ args true Hlen).
    rewrite Hlen, Nat.eqb_refl. cbn [negb].
    apply executeFunction_delivers; try assumption.
    eapply Forall2_impl; [|exact Hargs].
    intros arg payload (Hp & layers & ->) t Hin Ht.
    rewrite Forall_forall in Hbasic. specialize (Hbasic t Hin).
    cbn beta iota. rewrite resolveValue_nest.
    rewrite resolveValue_basic
      by (try assumption; eapply typed_not_nil; exact Ht).
    unfold resolveBasic. destruct Ht as (tv & Htv & Hav).
    now rewrite Htv, Hav.
Qed.

End DeliveryFacts.

Lemma worker_receives_payloads_witness :
  Sync (cv := reflect.integer_conversions) TInt (Func Add)
       [readyPromise TInt 0 (VInt 9); VInt 16] 2
  = invoke TInt Add [VInt 9; VInt 16] 2.
Proof.
  refine (proj1 (proj1 (@worker_receives_payloads reflect.integer_conversions
                          TInt Add [readyPromise TInt 0 (VInt 9); VInt 16]
                          [VInt 9; VInt 16] 2 eq_refl _) _)).
  - constructor; [|constructor; [|constructor]]; exists TInt; now split.
  - constructor; [|constructor; [|constructor]].
    + right. now exists TInt, 0.
    + left. now split.
Defined.

(** ** What a call returns *)

Section ReturnFacts.

Context {cv : reflect.Conversions}.

Lemma resolveArgs_length (ft : gofunc) (recursive : bool)
      (args : list govalue) :
  forall i h resolvedArgs h',
    resolveArgs ft recursive args i h = Ok (resolvedArgs, h') ->
    List.length resolvedArgs = List.length args.
Proof.
  induction args as [|arg rest IH]; intros i h resolvedArgs h' H.
  - cbn in H. inversion H. reflexivity.
  - cbn [resolveArgs] in H.
    destruct (nth_error (params ft) i) as [t|]; [|discriminate].
    unfold mbind at 1 in H.
    destruct ((if recursive then resolveValue arg t else shallowResolve arg t) h)
      as [[r h1]| | |]; try discriminate.
    cbn in H. unfold mbind at 1 in H.
    match type of H with
    | context [bind (?m h1) _] => destruct (m h1) as [[rv h2]| | |]
    end; try discriminate.
    cbn in H. unfold mbind at 1 in H.
    destruct (resolveArgs ft recursive rest (S i) h2)
      as [[others h3]| | |] eqn:E; try discriminate.
    cbn in H. inversion H; subst. cbn. f_equal. eapply IH. exact E.
Qed.

Lemma assertType_Ok (T : gotype) (r v : govalue) (h h' : heap) :
  assertType T r h = Ok (v, h') -> v = r /\ h' = h /\ typed v T.
Proof.
  unfold assertType, typed.
  destruct (reflect.TypeOf r) as [t|] eqn:Et; [|discriminate].
  destruct (reflect.AssignableTo t T) eqn:Ea; [|discriminate].
  intros H. inversion H; subst. eauto.
Qed.

Lemma executeFunction_Ok_inv (T : gotype) (f : callee) (recursive : bool)
      (args : list govalue) (h h' : heap) (v : govalue) :
  executeFunction T f recursive args h = Ok (v, h') ->
  typed v T /\
  exists ft resolvedArgs h1,
    f = Func ft /\
    List.length (results ft) = 1 /\
    List.length (params ft) = List.length args /\
    resolveArgs ft recursive args 0 h = Ok (resolvedArgs, h1) /\
    List.length resolvedArgs = List.length (params ft) /\
    call ft resolvedArgs h1 = Ok ([v], h').
Proof.
  unfold executeFunction. destruct f as [ft|x]; [|destruct x; discriminate].
  destruct (Nat.eqb_spec (List.length (results ft)) 1) as [Hout|];
    [|discriminate].
  destruct (Nat.eqb_spec (List.length (params ft)) (List.length args))
    as [Hlen|]; [|discriminate].
  cbn [negb]. unfold mbind at 1.
  destruct (resolveArgs ft recursive args 0 h) as [[ra h1]| | |] eqn:Er;
    try discriminate.
  cbn. unfold mbind.
  destruct (call ft ra h1) as [[rs h2]| | |] eqn:Ec; try discriminate.
  cbn. destruct rs as [|r [|r' rs]]; try discriminate.
  intros H. apply assertType_Ok in H. destruct H as (-> & -> & Ht).
  split; [assumption|].
  exists ft, ra, h1. repeat split; try assumption.
  apply resolveArgs_length in Er. lia.
Qed.

(** X10.  What [Sync] returns is the worker's own result and is of type
    [T].  [Sync] returns [v] only if [f] is a function of exactly one
    result, the arguments, the flag set aside, resolved one per parameter,
    and the worker, called on them, returned the single value [v], of a type
    assignable to [T], so never the nil interface.  The same holds for the
    value with which the goroutine of [Async] resolves a pending promise. *)
Theorem Sync_returns_a_T (T : gotype) (f : callee) (args : list govalue)
        (h h' : heap) (v : govalue)
        (Hsync : Sync T f args h = Ok (v, h')) :
  typed v T /\
  exists ft recursive args' resolvedArgs h1,
    f = Func ft /\
    List.length (results ft) = 1 /\
    detectFlag (List.length (params ft)) args = (recursive, args') /\
    resolveArgs ft recursive args' 0 h = Ok (resolvedArgs, h1) /\
    List.length resolvedArgs = List.length (params ft) /\
    call ft resolvedArgs h1 = Ok ([v], h') /\
    forall out,
      w_promise (runGoroutine T (mkClosure f recursive args')
                              (mkWorld (newPending (reflect.Zero T)) out h))
      = mkPromise v true true.
Proof.
  unfold Sync in Hsync. destruct f as [ft|x]; [|discriminate].
  destruct (detectFlag (List.length (params ft)) args)
    as [recursive args'] eqn:Hflag.
  destruct (negb (Nat.eqb (List.length args') (List.length (params ft))));
    [discriminate|].
  pose proof (executeFunction_Ok_inv _ _ _ _ _ Hsync) as Hinv.
  destruct Hinv as (Ht & ft' & ra & h1 & Hf & Hout & Hlen & Hra & Hn & Hc).
  inversion Hf; subst ft'.
  split; [assumption|].
  exists ft, recursive, args', ra, h1. repeat split; try assumption.
  intros out. unfold runGoroutine.
  cbn [w_heap w_promise w_stdout captured_f captured_recursive captured_args].
  rewrite Hsync. reflexivity.
Qed.

End ReturnFacts.

Lemma Sync_returns_a_T_witness :
  typed (VInt 25) TInt.
Proof.
  exact (proj1 (@Sync_returns_a_T reflect.integer_conversions TInt (Func Add)
                  [readyPromise TInt 0 (VInt 9); VInt 16] 2 2 (VInt 25)
                  eq_refl)).
Defined.

(** ** Errors of resolution *)

Section ArgumentErrorFacts.

Context {cv : reflect.Conversions}.

Lemma resolveArgs_first_error (ft : gofunc) (before : list govalue) :
  forall (arg : govalue) (after resolvedBefore : list govalue) (i : nat)
         (h h1 : heap) (t : gotype) (e : error),
    resolveArgs ft true before i h = Ok (resolvedBefore, h1) ->
    nth_error (params ft) (i + List.length before) = Some t ->
    resolveValue arg t h1 = Err e ->
    resolveArgs ft true (before ++ arg :: after) i h
    = Panic (PanicResolveArg (i + List.length before) e).
Proof.
  induction before as [|b before IH];
    intros arg after rb i h h1 t e Hbefore Hnth Herr.
  - cbn in Hbefore. inversion Hbefore; subst.
    cbn [app resolveArgs List.length] in *. rewrite Nat.add_0_r in *.
    rewrite Hnth. unfold mbind at 1. now rewrite Herr.
  - cbn [app resolveArgs] in *.
    destruct (nth_error (params ft) i) as [tb|]; [|discriminate].
    unfold mbind at 1 in Hbefore. unfold mbind at 1.
    destruct (resolveValue b tb h) as [[r ha]| | |]; try discriminate.
    cbn in Hbefore |- *.
    unfold mbind at 1 in Hbefore. unfold mbind at 1.
    match type of Hbefore with
    | context [bind (?m ha) _] => destruct (m ha) as [[rv hb]| | |]
    end; try discriminate.
    cbn in Hbefore |- *.
    unfold mbind at 1 in Hbefore. unfold mbind at 1.
    destruct (resolveArgs ft true before (S i) hb)
      as [[others hc]| | |] eqn:E; try discriminate.
    cbn in Hbefore. inversion Hbefore; subst.
    cbn [List.length] in Hnth. rewrite Nat.add_succ_r in Hnth.
    rewrite (IH arg after others (S i) hb h1 t e E Hnth Herr).
    cbn. now rewrite Nat.add_succ_r.
Qed.

(** X11.  In recursive mode an argument that cannot be resolved stops the
    call with a panic that names it.  When the arguments before index [i]
    resolve and the argument at index [i] fails against its parameter type
    with an error, [Sync] with a trailing [true] panics with that index and
    that error, the worker is not called, and the arguments after it are
    not looked at. *)
Theorem resolution_error_names_argument (T : gotype) (ft : gofunc)
        (before after resolvedBefore : list govalue) (arg : govalue)
        (h h1 : heap) (t : gotype) (e : error)
        (Hout : List.length (results ft) = 1)
        (Hlen : List.length (before ++ arg :: after) = List.length (params ft))
        (Hbefore : resolveArgs ft true before 0 h = Ok (resolvedBefore, h1))
        (Hnth : nth_error (params ft) (List.length before) = Some t)
        (Herr : resolveValue arg t h1 = Err e) :
  executeFunction T (Func ft) true (before ++ arg :: after) h
  = Panic (PanicResolveArg (List.length before) e) /\
  Sync T (Func ft) ((before ++ arg :: after) ++ [VBool true]) h
  = Panic (PanicResolveArg (List.length before) e).
Proof.
  assert (Hexec : executeFunction T (Func ft) true (before ++ arg :: after) h
                  = Panic (PanicResolveArg (List.length before) e)).
  { unfold executeFunction. rewrite Hout, Hlen, !Nat.eqb_refl. cbn [negb].
    unfold mbind at 1.
    now rewrite (@resolveArgs_first_error ft before arg after resolvedBefore
                   0 h h1 t e Hbefore Hnth Herr). }
  split; [exact Hexec|].
  unfold Sync.
  rewrite (@detectFlag_with_flag _ (before ++ arg :: after) true Hlen).
  rewrite Hlen, Nat.eqb_refl. exact Hexec.
Qed.

End ArgumentErrorFacts.

Lemma resolution_error_names_argument_witness :
  Sync (cv := reflect.integer_conversions) TInt (Func Add)
       (([VInt 1] ++ VString "two" :: []) ++ [VBool true]) 0
  = Panic (PanicResolveArg 1 (ErrCannotConvert TString TInt)).
Proof.
  exact (proj2 (@resolution_error_names_argument reflect.integer_conversions
                  TInt Add [VInt 1] [] [VInt 1] (VString "two") 0 0 TInt
                  (ErrCannotConvert TString TInt)
                  eq_refl eq_refl eq_refl eq_refl eq_refl)).
Defined.

(** ** The resolver of the first generations *)

Lemma shallowResolveArgs_cons (arg : govalue) (rest vals : list govalue) :
  shallowResolveArgs (arg :: rest) = Ok vals <->
  exists val others,
    vals = val :: others /\
    match arg with
    | VPtr (TPromise _) target => get target
    | _ => Ok arg
    end = Ok val /\
    shallowResolveArgs rest = Ok others.
Proof.
  cbn [shallowResolveArgs]. split.
  - intros H.
    destruct (match arg with
              | VPtr (TPromise _) target => get target
              | _ => Ok arg
              end) as [val| | |]; try discriminate.
    cbn in H.
    destruct (shallowResolveArgs rest) as [others| | |]; try discriminate.
    cbn in H. inversion H; subst. now exists val, others.
  - intros (val & others & -> & Hval & Hrest). now rewrite Hval, Hrest.
Qed.

Lemma shallowResolve_agrees (arg val : govalue) :
  arg <> VNil ->
  (match arg with
   | VPtr (TPromise _) target => get target
   | _ => Ok arg
   end = Ok val <->
   forall t h, shallowResolve arg t h = Ok (val, h)).
Proof.
  intros Hnil. split.
  - intros H t h.
    destruct arg as [| | | | |elem target| | | |];
      try congruence; try (inversion H; reflexivity).
    destruct elem; try (inversion H; reflexivity).
    unfold shallowResolve, mbind, lift. now rewrite H.
  - intros H. specialize (H TInt 0).
    destruct arg as [| | | | |elem target| | | |];
      try congruence; try (inversion H; reflexivity).
    destruct elem; try (inversion H; reflexivity).
    unfold shallowResolve, mbind, lift in H.
    destruct (get target); try discriminate. cbn in H. now inversion H.
Qed.

Lemma shallowResolveArgs_Forall2 (args : list govalue) :
  forall vals,
    shallowResolveArgs args = Ok vals <->
    Forall2 (fun arg val =>
               (arg = VNil /\ val = VNil) \/
               (arg <> VNil /\
                forall t h, shallowResolve arg t h = Ok (val, h)))
            args vals.
Proof.
  induction args as [|arg rest IH]; intros vals.
  - cbn. split.
    + intros H; inversion H; constructor.
    + intros H; inversion H; reflexivity.
  - rewrite shallowResolveArgs_cons. split.
    + intros (val & others & -> & Hval & Hrest).
      constructor; [|now apply IH].
      destruct arg as [| | | | |elem target| | | |];
        try (right; split; [discriminate|];
             apply shallowResolve_agrees; [discriminate|exact Hval]).
      left. now inversion Hval.
    + intros H. inversion H as [|a val r others Harg Hrest]; subst.
      exists val, others. split; [reflexivity|].
      split; [|now apply IH].
      destruct Harg as [[-> ->]|[Hnil Hs]]; [reflexivity|].
      now apply shallowResolve_agrees.
Qed.

(** X12.  [shallowResolveArgs], the resolver of the generations without the
    flag, and [shallowResolve] do the same to every argument but nil: the
    old resolver returns a list exactly when each argument is nil, which it
    keeps as the zero [Value], or is turned into the corresponding element
    by [shallowResolve], whatever the expected type and without
    allocation.  The result has one element per argument. *)
Theorem old_resolver_is_shallow_mode (args vals : list govalue) :
  (shallowResolveArgs args = Ok vals <->
   Forall2 (fun arg val =>
              (arg = VNil /\ val = VNil) \/
              (arg <> VNil /\
               forall t h, shallowResolve arg t h = Ok (val, h)))
           args vals) /\
  (shallowResolveArgs args = Ok vals ->
   List.length vals = List.length args).
Proof.
  split; [apply shallowResolveArgs_Forall2|].
  intros H. apply shallowResolveArgs_Forall2 in H.
  symmetry. eapply Forall2_length. exact H.
Qed.

(** ** Container factories *)

Lemma fillSlice_ready (T : gotype) (n : nat) :
  forall h,
    fillSlice (newPromisePtr T) n h
    = Ok (map (fun a => readyPromise T a (reflect.Zero T)) (seq h n), h + n).
Proof.
  induction n as [|n IH]; intros h.
  - cbn. now rewrite Nat.add_0_r.
  - cbn [fillSlice seq map]. unfold mbind at 1. cbn.
    unfold mbind at 1. rewrite IH. cbn. now rewrite Nat.add_succ_r.
Qed.

Lemma fillSlice_pending (T : gotype) (n : nat) :
  forall h,
    fillSlice (newPendingPtr T) n h
    = Ok (map (fun a => promisePtr T a (newPending (reflect.Zero T)))
              (seq h n), h + n).
Proof.
  induction n as [|n IH]; intros h.
  - cbn. now rewrite Nat.add_0_r.
  - cbn [fillSlice seq map]. unfold mbind at 1. cbn.
    unfold mbind at 1. rewrite IH. cbn. now rewrite Nat.add_succ_r.
Qed.

Lemma makeslice_Ok (maxElems length cap : Z) (h : heap) :
  (0 <= length <= cap)%Z -> (cap <= maxElems)%Z ->
  makeslice maxElems length cap h = Ok (Z.to_nat length, h).
Proof.
  intros [Hl Hc] Hm. unfold makeslice.
  destruct (Z.ltb_spec cap 0); [lia|].
  destruct (Z.ltb_spec maxElems cap); [lia|].
  destruct (Z.ltb_spec length 0); [lia|].
  destruct (Z.ltb_spec cap length); [lia|]. reflexivity.
Qed.

Lemma makeslice_Panic (maxElems length cap : Z) (h : heap) :
  (length < 0 \/ cap < length \/ maxElems < cap)%Z ->
  exists msg, makeslice maxElems length cap h = Panic (PanicRuntime msg).
Proof.
  intros Hbad. unfold makeslice.
  destruct ((cap <? 0)%Z || (maxElems <? cap)%Z || (length <? 0)%Z
            || (cap <? length)%Z) eqn:E.
  - destruct ((length <? 0)%Z || (maxElems <? length)%Z);
      eexists; reflexivity.
  - rewrite !orb_false_iff in E. destruct E as [[[_ E1] E2] E3].
    apply Z.ltb_ge in E1, E2, E3. lia.
Qed.

Section FactoryFacts.

Context {cv : reflect.Conversions}.

Lemma resolveElems_zeros (T : gotype) (context : nat -> error -> error)
      (addrs : list addr) :
  basic T = true ->
  forall i h,
    resolveElems (fun x => resolveValue x T) T context
                 (map (fun a => readyPromise T a (reflect.Zero T)) addrs) i h
    = Ok (repeat (reflect.Zero T) (List.length addrs), h).
Proof.
  intros Hbasic. induction addrs as [|a addrs IH]; intros i h; [reflexivity|].
  cbn [map resolveElems List.length repeat].
  unfold mbind at 1. unfold wrapErr at 1.
  assert (Hz : resolveValue (readyPromise T a (reflect.Zero T)) T h
               = Ok (reflect.Zero T, h)).
  { destruct T; try discriminate; reflexivity. }
  rewrite Hz. cbn. unfold mbind at 1. unfold lift at 1.
  assert (Ha : reflect.assign T (reflect.Zero T) = Ok (reflect.Zero T)).
  { destruct T; try discriminate; reflexivity. }
  rewrite Ha. cbn. unfold mbind at 1. rewrite IH. reflexivity.
Qed.

(** X13.  [MakeSlice[T](length, capacity...)].  With a length that is not
    negative and not above the capacity (the length itself when none is
    given), and a capacity the runtime can allocate, it returns a slice of
    exactly [length] promises, at as many consecutive fresh addresses, hence
    all distinct, each ready with the zero value of [T]; with a negative
    length, a capacity below the length or one beyond what the runtime
    allocates it panics in [make].  For a basic [T] the slice resolves
    recursively against [[]T] to [length] zero values. *)
Theorem MakeSlice_ready_zeros (maxElems : Z) (T : gotype) (length : Z)
        (capacity : list Z) (h : heap) :
  let cap := match capacity with
             | [] => length
             | c :: _ => c
             end in
  ((0 <= length <= cap)%Z -> (cap <= maxElems)%Z ->
   MakeSlice maxElems T length capacity h
   = Ok (VSlice (TPtr (TPromise T)) false
                (map (fun a => readyPromise T a (reflect.Zero T))
                     (seq h (Z.to_nat length))),
         h + Z.to_nat length) /\
   NoDup (seq h (Z.to_nat length)) /\
   (basic T = true ->
    forall h',
      resolveValue (VSlice (TPtr (TPromise T)) false
                           (map (fun a => readyPromise T a (reflect.Zero T))
                                (seq h (Z.to_nat length))))
                   (TSlice T) h'
      = Ok (VSlice T false (repeat (reflect.Zero T) (Z.to_nat length)), h'))) /\
  ((length < 0 \/ cap < length \/ maxElems < cap)%Z ->
   exists msg,
     MakeSlice maxElems T length capacity h = Panic (PanicRuntime msg)).
Proof.
  intros cap. split.
  - intros Hrange Hmax. split; [|split].
    + unfold MakeSlice. fold cap. unfold mbind at 1.
      rewrite makeslice_Ok by assumption. cbn.
      unfold mbind at 1. rewrite fillSlice_ready. reflexivity.
    + apply seq_NoDup.
    + intros Hbasic h'. cbn [resolveValue]. unfold mbind.
      rewrite resolveElems_zeros by assumption.
      cbn. now rewrite length_seq.
  - intros Hbad. unfold MakeSlice. fold cap. unfold mbind at 1.
    destruct (@makeslice_Panic maxElems length cap h Hbad) as [msg ->].
    now exists msg.
Qed.

(** X14.  [MakePendingSlice[T](length, capacity...)] under the same
    condition returns [length] pending promises at consecutive fresh
    addresses.  Resolving any one of them blocks, and so does the recursive
    resolution of the slice against any slice type as soon as it has an
    element; the empty one resolves to the empty slice. *)
Theorem MakePendingSlice_blocks (maxElems : Z) (T : gotype) (length : Z)
        (capacity : list Z) (h : heap) :
  let cap := match capacity with
             | [] => length
             | c :: _ => c
             end in
  (0 <= length <= cap)%Z -> (cap <= maxElems)%Z ->
  exists slice,
    MakePendingSlice maxElems T length capacity h
    = Ok (VSlice (TPtr (TPromise T)) false slice, h + Z.to_nat length) /\
    slice = map (fun a => promisePtr T a (newPending (reflect.Zero T)))
                (seq h (Z.to_nat length)) /\
    Forall (fun p => forall t h', resolveValue p t h' = Blocked) slice /\
    forall elemT h',
      resolveValue (VSlice (TPtr (TPromise T)) false slice) (TSlice elemT) h'
      = if (length =? 0)%Z then Ok (VSlice elemT false [], h') else Blocked.
Proof.
  intros cap Hrange Hmax. eexists. split; [|split; [reflexivity|split]].
  - unfold MakePendingSlice. fold cap. unfold mbind at 1.
    rewrite makeslice_Ok by assumption. cbn.
    unfold mbind at 1. rewrite fillSlice_pending. reflexivity.
  - apply Forall_forall. intros p Hin. apply in_map_iff in Hin.
    destruct Hin as (a & <- & _). reflexivity.
  - intros elemT h'.
    destruct (Z.eqb_spec length 0) as [->|Hne]; [reflexivity|].
    destruct (Z.to_nat length) as [|n] eqn:En; [lia|]. reflexivity.
Qed.

End FactoryFacts.

Lemma MakeSlice_ready_zeros_witness :
  MakeSlice 1000 TInt 2 [4%Z] 5
  = Ok (VSlice (TPtr (TPromise TInt)) false
               [readyPromise TInt 5 (VInt 0); readyPromise TInt 6 (VInt 0)], 7).
Proof.
  refine (proj1 (proj1 (@MakeSlice_ready_zeros reflect.integer_conversions
                          1000%Z TInt 2%Z [4%Z] 5) _ _)); lia.
Defined.

Lemma MakePendingSlice_blocks_witness :
  resolveValue (cv := reflect.integer_conversions)
               (VSlice (TPtr (TPromise TInt)) false
                       (map (fun a => promisePtr TInt a (newPending (VInt 0)))
                            (seq 5 2)))
               (TSlice TInt) 7
  = Blocked.
Proof.
  destruct (@MakePendingSlice_blocks reflect.integer_conversions
              1000%Z TInt 2%Z [] 5 ltac:(lia) ltac:(lia))
    as (slice & _ & -> & _ & H).
  exact (H TInt 7).
Defined.

(** ** The generation before the flag *)

Lemma Call_typed (ft : gofunc) (vals : list govalue) (h : heap) :
  Forall2 typed vals (params ft) -> Call ft vals h = call ft vals h.
Proof.
  intros Htyped. unfold Call.
  pose proof (Forall2_length Htyped) as Hlen.
  rewrite Hlen, Nat.ltb_irrefl.
  assert (Hzero : existsb (fun x => match reflect.TypeOf x with
                                    | None => true
                                    | Some _ => false
                                    end) vals = false).
  { clear Hlen. induction Htyped as [|v t vals ts (tv & Htv & _) _ IH];
      [reflexivity|]. cbn. now rewrite Htv, IH. }
  rewrite Hzero.
  assert (Hall : forallb (fun xt => match reflect.TypeOf (fst xt) with
                                    | None => false
                                    | Some t => reflect.AssignableTo t (snd xt)
                                    end) (combine vals (params ft)) = true).
  { clear Hlen Hzero.
    induction Htyped as [|v t vals ts (tv & Htv & Hav) _ IH];
      [reflexivity|]. cbn. now rewrite Htv, Hav, IH. }
  now rewrite Hall.
Qed.

Section GenerationFacts.

Context {cv : reflect.Conversions}.

(** X15.  The two generations agree on a well-typed call.  When the old
    resolver turns the arguments into values assignable to the parameters
    of the function, one each, [v1.Sync] and the [Sync] with the flag, called
    without it, do the same: both panic on a function that does not declare
    exactly one result, and otherwise both call the worker on those values
    and check its result. *)
Theorem generations_agree (T : gotype) (ft : gofunc)
        (args vals : list govalue) (h : heap)
        (Hvals : shallowResolveArgs args = Ok vals)
        (Htyped : Forall2 typed vals (params ft)) :
  v1.Sync T (Func ft) args h = Sync T (Func ft) args h /\
  Sync T (Func ft) args h
  = if Nat.eqb (List.length (results ft)) 1 then invoke T ft vals h
    else Panic (PanicNumOut (List.length (results ft))).
Proof.
  assert (Hlen : List.length args = List.length (params ft)).
  { pose proof (proj1 (shallowResolveArgs_Forall2 args vals) Hvals) as Hf.
    apply Forall2_length in Hf. apply Forall2_length in Htyped. lia. }
  assert (Hv1 : v1.Sync T (Func ft) args h
                = if Nat.eqb (List.length (results ft)) 1
                  then invoke T ft vals h
                  else Panic (PanicNumOut (List.length (results ft)))).
  { unfold v1.Sync, v1.executeFunction, v1.resolveArgs.
    unfold mbind at 1. unfold lift. rewrite Hvals. cbn.
    destruct (Nat.eqb (List.length (results ft)) 1); [|reflexivity].
    cbn [negb]. unfold invoke, mbind. now rewrite Call_typed. }
  assert (Hv2 : Sync T (Func ft) args h
                = if Nat.eqb (List.length (results ft)) 1
                  then invoke T ft vals h
                  else Panic (PanicNumOut (List.length (results ft)))).
  { unfold Sync. rewrite (@detectFlag_exact _ args Hlen).
    rewrite Hlen, Nat.eqb_refl. cbn [negb].
    destruct (Nat.eqb_spec (List.length (results ft)) 1) as [Hout|Hout].
    - apply executeFunction_delivers; try assumption.
      apply shallowResolveArgs_Forall2 in Hvals.
      eapply Forall2_impl; [|exact Hvals].
      intros arg val Harg t' _ Ht'. cbn beta iota.
      destruct Harg as [[-> ->]|[_ Hs]]; [|apply Hs].
      now apply typed_not_nil in Ht'.
    - now apply executeFunction_NumOut. }
  split; [now rewrite Hv1, Hv2 | exact Hv2].
Qed.

End GenerationFacts.

Lemma generations_agree_witness :
  v1.Sync TInt (Func Add) [readyPromise TInt 0 (VInt 9); VInt 16] 2
  = Sync (cv := reflect.integer_conversions) TInt (Func Add)
         [readyPromise TInt 0 (VInt 9); VInt 16] 2.
Proof.
  refine (proj1 (@generations_agree reflect.integer_conversions TInt Add
                   [readyPromise TInt 0 (VInt 9); VInt 16]
                   [VInt 9; VInt 16] 2 eq_refl _)).
  constructor; [|constructor; [|constructor]]; exists TInt; now split.
Defined.

Section FirstGenerationFacts.

Context {cv : reflect.Conversions}.

Lemma type_eqb_refl (t : gotype) : reflect.type_eqb t t = true.
Proof.
  induction t; cbn; rewrite ?Nat.eqb_refl, ?IHt, ?IHt1, ?IHt2; reflexivity.
Qed.

Lemma TypeOf_Zero (t : gotype) :
  reflect.TypeOf (reflect.Zero t)
  = match t with
    | TInterface => None
    | _ => Some t
    end.
Proof.
  destruct t; try reflexivity. cbn. now rewrite repeat_length.
Qed.

Lemma existsb_zero_Value (vals : list govalue) :
  In VNil vals ->
  existsb (fun x => match reflect.TypeOf x with
                    | None => true
                    | Some _ => false
                    end) vals = true.
Proof.
  intros Hin. apply existsb_exists. exists VNil. now split.
Qed.

(** X16.  Where the generation before the flag departs from the one with
    it.  It resolves the arguments before it looks at [f]: when an argument
    is a pending promise [v1.Sync] blocks even if [f] is not a function,
    where [Sync] panics at once.  It leaves the number of arguments to
    [reflect]: too few or too many of them give [reflect]'s panic, not the
    package's.  And it passes a nil argument on as the zero [Value], which
    [Call] refuses, where the shallow mode of [Sync] passes the zero value
    of the parameter type to the worker. *)
Theorem first_generation_edges (T : gotype) (args : list govalue) (h : heap) :
  (shallowResolveArgs args = Blocked ->
   forall f v,
     v1.Sync T f args h = Blocked /\
     Sync T (NotFunc v) args h = Panic (PanicNotFunc "Sync")) /\
  (forall ft vals,
      shallowResolveArgs args = Ok vals ->
      List.length (results ft) = 1 ->
      List.length args <> List.length (params ft) ->
      exists msg, v1.Sync T (Func ft) args h = Panic (PanicRuntime msg)) /\
  (forall ft vals,
      shallowResolveArgs args = Ok vals ->
      List.length (results ft) = 1 ->
      List.length args = List.length (params ft) ->
      In VNil args ->
      v1.Sync T (Func ft) args h
      = Panic (PanicRuntime "reflect: Call using zero Value argument")) /\
  (forall ft t,
      params ft = [t] -> List.length (results ft) = 1 -> args = [VNil] ->
      Sync T (Func ft) args h = invoke T ft [reflect.Zero t] h).
Proof.
  split; [|split; [|split]].
  - intros Hb f v. split; [|reflexivity].
    unfold v1.Sync, v1.executeFunction, v1.resolveArgs, mbind, lift.
    now rewrite Hb.
  - intros ft vals Hvals Hout Hlen.
    pose proof (proj1 (shallowResolveArgs_Forall2 args vals) Hvals) as Hf.
    apply Forall2_length in Hf.
    unfold v1.Sync, v1.executeFunction, v1.resolveArgs.
    unfold mbind at 1. unfold lift. rewrite Hvals. cbn.
    rewrite Hout. cbn [Nat.eqb negb]. unfold mbind, Call.
    destruct (Nat.ltb_spec (List.length vals) (List.length (params ft)));
      [eexists; reflexivity|].
    destruct (Nat.ltb_spec (List.length (params ft)) (List.length vals));
      [eexists; reflexivity|]. lia.
  - intros ft vals Hvals Hout Hlen Hin.
    pose proof (proj1 (shallowResolveArgs_Forall2 args vals) Hvals) as Hf.
    assert (Hnil : In VNil vals).
    { clear - Hf Hin. induction Hf as [|arg val args vals Harg _ IH];
        [contradiction|].
      destruct Hin as [->|Hin]; [|right; now apply IH].
      left. destruct Harg as [[_ ->]|[Hne _]]; [reflexivity|congruence]. }
    apply Forall2_length in Hf.
    unfold v1.Sync, v1.executeFunction, v1.resolveArgs.
    unfold mbind at 1. unfold lift. rewrite Hvals. cbn.
    rewrite Hout. cbn [Nat.eqb negb]. unfold mbind, Call.
    assert (Hl : List.length vals = List.length (params ft)) by lia.
    rewrite Hl, Nat.ltb_irrefl.
    now rewrite (existsb_zero_Value _ Hnil).
  - intros ft t Hparams Hout ->.
    unfold Sync, detectFlag. rewrite Hparams. cbn.
    unfold executeFunction. rewrite Hout, Hparams. cbn.
    unfold mbind at 1. cbn. rewrite TypeOf_Zero.
    destruct t; try reflexivity;
      unfold reflect.AssignableTo; rewrite type_eqb_refl; reflexivity.
Qed.

End FirstGenerationFacts.

Lemma first_generation_edges_witness :
  v1.Sync TInt (Func Square) [VNil] 0
  = Panic (PanicRuntime "reflect: Call using zero Value argument").
Proof.
  refine (proj1 (proj2 (proj2 (@first_generation_edges
            reflect.integer_conversions TInt [VNil] 0)))
            Square [VNil] eq_refl eq_refl eq_refl _).
  now left.
Defined.

(** ** Nil arguments and basic types *)

Section ScalarFacts.

Context {cv : reflect.Conversions}.

Lemma Zero_assignable (t tz : gotype) :
  reflect.TypeOf (reflect.Zero t) = Some tz -> reflect.AssignableTo tz t = true.
Proof.
  rewrite TypeOf_Zero. destruct t; try discriminate;
    intros H; inversion H; subst;
      unfold reflect.AssignableTo; now rewrite type_eqb_refl.
Qed.

(** X17.  A nil argument reaches the worker as the zero value of its
    parameter type, in either mode and at any position: the loop of
    [executeFunction] resolves it to that zero value without allocating,
    converts nothing, and goes on with the next argument.  For a parameter
    of type [interface{}] the zero value is nil itself. *)
Theorem nil_argument_is_zero_value (ft : gofunc) (recursive : bool)
        (rest : list govalue) (i : nat) (t : gotype) (h : heap)
        (Hnth : nth_error (params ft) i = Some t) :
  resolveArgs ft recursive (VNil :: rest) i h
  = (others <- resolveArgs ft recursive rest (S i) ;;
     ret (reflect.Zero t :: others)) h /\
  (t = TInterface -> reflect.Zero t = VNil).
Proof.
  split; [|now intros ->].
  cbn [resolveArgs]. rewrite Hnth. unfold mbind at 1.
  assert (Hres : (if recursive then resolveValue VNil t
                  else shallowResolve VNil t) h = Ok (reflect.Zero t, h))
    by now destruct recursive.
  rewrite Hres. cbn.
  destruct (reflect.TypeOf (reflect.Zero t)) as [tz|] eqn:Ez.
  - now rewrite (Zero_assignable _ Ez).
  - reflexivity.
Qed.

(** X18.  Against a basic type (bool, int, int64, string) the input decides
    nothing about the descent: whatever it is, once it is neither nil nor a
    promise, and under however many ready promises it comes, it is returned
    as it is when its type is the expected one, handed to [Convert] when
    its type is convertible, and otherwise refused with the error naming
    both types; nothing is allocated.  So a container of promises passed
    for a basic type is never looked into. *)
Theorem basic_type_assign_or_convert (layers : list (gotype * addr))
        (input : govalue) (ti t : gotype) (h : heap)
        (Hpromise : isPromise input = false)
        (Htype : reflect.TypeOf input = Some ti)
        (Hbasic : basic t = true) :
  resolveValue (nest layers input) t h
  = if reflect.type_eqb ti t then Ok (input, h)
    else if reflect.ConvertibleTo ti t
         then lift (reflect.Convert input t) h
         else Err (ErrCannotConvert ti t).
Proof.
  rewrite resolveValue_nest.
  rewrite resolveValue_basic;
    [|assumption | intros ->; discriminate | assumption].
  unfold resolveBasic. rewrite Htype.
  destruct (reflect.type_eqb ti t) eqn:Eq.
  - assert (Ha : reflect.AssignableTo ti t = true)
      by (unfold reflect.AssignableTo; now rewrite Eq).
    now rewrite Ha.
  - assert (Ha : reflect.AssignableTo ti t = false).
    { unfold reflect.AssignableTo. rewrite Eq.
      destruct t; try discriminate; reflexivity. }
    rewrite Ha.
    destruct (reflect.ConvertibleTo ti t); reflexivity.
Qed.

End ScalarFacts.

Lemma nil_argument_is_zero_value_witness :
  resolveArgs (cv := reflect.integer_conversions) SumSlice true [VNil] 0 3
  = Ok ([VSlice TInt true []], 3).
Proof.
  exact (proj1 (@nil_argument_is_zero_value reflect.integer_conversions
                  SumSlice true [] 0 (TSlice TInt) 3 eq_refl)).
Defined.

Lemma basic_type_assign_or_convert_witness :
  resolveValue (cv := reflect.integer_conversions)
               (nest [(TInt64, 0)] (VInt64 7)) TInt 1
  = Ok (VInt 7, 1).
Proof.
  exact (@basic_type_assign_or_convert reflect.integer_conversions
           [(TInt64, 0)] (VInt64 7) TInt64 TInt 1 eq_refl eq_refl eq_refl).
Defined.
